(** * A PID control system tuned by a genetic algorithm

    Shallow embedding of [src/algorithm/Chromosome.py],
    [src/algorithm/ControlSystem.py] and [src/algorithm/GeneticAlgorithm.py].

    Conventions of the embedding.
    - The floats of the simulator and of the genes are idealised as real
      numbers ([R]) with the decidable comparisons of [R]; what is proved of
      them keeps the expressions of the source.
    - The numbers the crossover branches on are exact: a draw of
      [random()] is a multiple of 2^-53, and the thresholds [1 / 5] ...
      [4 / 5] are the doubles these quotients evaluate to.
    - The fitness values handed to the tournament are Python floats
      ([float]): a number, an infinity or NaN, compared as IEEE 754 does.
    - Python exceptions are values of [Exception], tagged with the
      expression that raises them.
    - Chromosomes are Python objects: the genetic algorithm keeps them in an
      object store and its population is a list of references, so that the
      in-place gene updates of [__mutation] are seen through every alias.
    - [numpy.random] is a tape of draws that is consumed cell by cell. *)

From Stdlib Require Import Reals Lra Lia ZArith List.
From stdpp Require Import base option list.
Import ListNotations.

Local Open Scope R_scope.

(** ** Exceptions and results *)

Inductive Exception : Type :=
| ValueError_linspace       (* numpy.linspace: negative number of samples *)
| ValueError_randint        (* numpy.random.randint: low >= high *)
| IndexError_input_signal   (* self.input_signal[...] *)
| IndexError_fitness_values (* fitness_values[...] *)
| IndexError_populations    (* self.populations[...] *)
| Dangling_reference        (* a reference to no object: not a Python error *).

Inductive Outcome (A : Type) : Type :=
| Return (a : A)
| Raise (e : Exception).

Arguments Return {A} a.
Arguments Raise {A} e.

Definition obind {A B : Type} (m : Outcome A) (f : A -> Outcome B) : Outcome B :=
  match m with
  | Return a => f a
  | Raise e => Raise e
  end.

Notation "'do' x <- m ; f" := (obind m (fun x => f))
  (at level 10, x name, m at level 100, f at level 200).

(** [l[i]] of a Python list or numpy array, for a non-negative index. *)
Definition getitem {A : Type} (l : list A) (i : nat) (e : Exception) : Outcome A :=
  match l !! i with
  | Some a => Return a
  | None => Raise e
  end.

(** [clamp(v, lo, hi)]: [v] brought back to the nearer bound when it lies
    below [lo] or above [hi]. *)
Definition clamp (v lo hi : R) : R :=
  if Rlt_dec v lo then lo else if Rgt_dec v hi then hi else v.

(** A Python float as a comparison sees it: a number, an infinity, or NaN. *)
Inductive float : Type :=
| Finite (x : R)
| PlusInfinity
| MinusInfinity
| NaN.

(** [a < b] on floats: every comparison with NaN is false. *)
Definition float_lt (a b : float) : Prop :=
  match a with
  | Finite x =>
      match b with
      | Finite y => x < y
      | PlusInfinity => True
      | MinusInfinity | NaN => False
      end
  | MinusInfinity =>
      match b with
      | Finite _ | PlusInfinity => True
      | MinusInfinity | NaN => False
      end
  | PlusInfinity | NaN => False
  end.

(** [a <= b] on floats. *)
Definition float_le (a b : float) : Prop :=
  match a with
  | Finite x =>
      match b with
      | Finite y => x <= y
      | PlusInfinity => True
      | MinusInfinity | NaN => False
      end
  | MinusInfinity =>
      match b with
      | NaN => False
      | Finite _ | PlusInfinity | MinusInfinity => True
      end
  | PlusInfinity =>
      match b with
      | PlusInfinity => True
      | Finite _ | MinusInfinity | NaN => False
      end
  | NaN => False
  end.

Definition float_lt_dec (a b : float) : {float_lt a b} + {~ float_lt a b} :=
  match a return {float_lt a b} + {~ float_lt a b} with
  | Finite x =>
      match b return {float_lt (Finite x) b} + {~ float_lt (Finite x) b} with
      | Finite y => Rlt_dec x y
      | PlusInfinity => left I
      | MinusInfinity | NaN => right (fun H => H)
      end
  | MinusInfinity =>
      match b return {float_lt MinusInfinity b} + {~ float_lt MinusInfinity b} with
      | Finite _ | PlusInfinity => left I
      | MinusInfinity | NaN => right (fun H => H)
      end
  | PlusInfinity | NaN => right (fun H => H)
  end.

(** [range(start, stop)] for a non-negative start. *)
Definition range (start : nat) (stop : Z) : list nat :=
  seq start (Z.to_nat stop - start).

(** ** The numerical library functions the simulator calls *)

Module numpy.

  (** [numpy.linspace(start, stop, num)] with the endpoint included: [num]
      evenly spaced samples, the last one being [stop] itself when there is
      more than one. *)
Definition linspace (start stop : R) (num : Z) : Outcome (list R) :=
    if (num <? 0)%Z then Raise ValueError_linspace
    else
      let div := (num - 1)%Z in
      let delta := stop - start in
      let y := map INR (seq 0 (Z.to_nat num)) in
      let y :=
        if (0 <? div)%Z
        then let step := delta / IZR div in map (fun v => v * step) y
        else map (fun v => v * delta) y in
      let y := map (fun v => v + start) y in
      Return (if (1 <? num)%Z then <[(Z.to_nat num - 1)%nat := stop]> y else y).

  (** [numpy.mod]: the remainder that goes with floored division. *)
Definition mod_ (x m : R) : R := x - IZR (Zfloor (x / m)) * m.

  (** [sum(abs(array(l)))]: Python's [sum] adds from the left, from 0. *)
Definition sum (l : list R) : R := fold_left Rplus l 0.

End numpy.

Module scipy.

  (** [scipy.signal.square(t)] with its default duty cycle 0.5: +1 on the
      first half of each 2*pi period, -1 on the second. *)
Definition square (t : R) : R :=
    let w := 0.5 in
    let tmod := numpy.mod_ t (2 * PI) in
    if Rlt_dec tmod (w * 2 * PI) then 1 else -1.

End scipy.

(** ** Chromosome.py *)

Module Chromosome.

Record t : Type := Chromosome {
    kp : R;
    ki : R;
    kd : R;
    eta : R
  }.

Definition set_kp (v : R) (c : t) : t := Chromosome v (ki c) (kd c) (eta c).
Definition set_ki (v : R) (c : t) : t := Chromosome (kp c) v (kd c) (eta c).
Definition set_kd (v : R) (c : t) : t := Chromosome (kp c) (ki c) v (eta c).
Definition set_eta (v : R) (c : t) : t := Chromosome (kp c) (ki c) (kd c) v.

End Chromosome.

(** ** ControlSystem.py *)

Module ControlSystem.

  (** The [control-system] section of the configuration. *)
Record Config : Type := {
    initial_y_now : R;
    cfg_period : Z;
    cfg_slicing_per_period : Z;
    cfg_u_boundary : R * R
  }.

  (** The attributes of a [ControlSystem] object. *)
Record t : Type := mk {
    y_now : R;
    period : Z;
    slicing_per_period : Z;
    u_boundary : R * R;
    kp : R;
    ki : R;
    kd : R;
    eta : R;
    input_signal : list R;
    y_fore : R;
    y : list R;
    error_now : R;
    error_fore : R;
    error_sum : R;
    errors : list R;
    u_now : R;
    u_fore : R
  }.

  (** Attribute assignments [self.x = v]. *)
Definition set_y_now (v : R) (s : t) : t :=
    mk v (period s) (slicing_per_period s) (u_boundary s) (kp s) (ki s) (kd s)
       (eta s) (input_signal s) (y_fore s) (y s) (error_now s) (error_fore s)
       (error_sum s) (errors s) (u_now s) (u_fore s).
Definition set_y_fore (v : R) (s : t) : t :=
    mk (y_now s) (period s) (slicing_per_period s) (u_boundary s) (kp s) (ki s)
       (kd s) (eta s) (input_signal s) v (y s) (error_now s) (error_fore s)
       (error_sum s) (errors s) (u_now s) (u_fore s).
Definition set_y (v : list R) (s : t) : t :=
    mk (y_now s) (period s) (slicing_per_period s) (u_boundary s) (kp s) (ki s)
       (kd s) (eta s) (input_signal s) (y_fore s) v (error_now s) (error_fore s)
       (error_sum s) (errors s) (u_now s) (u_fore s).
Definition set_error_now (v : R) (s : t) : t :=
    mk (y_now s) (period s) (slicing_per_period s) (u_boundary s) (kp s) (ki s)
       (kd s) (eta s) (input_signal s) (y_fore s) (y s) v (error_fore s)
       (error_sum s) (errors s) (u_now s) (u_fore s).
Definition set_error_fore (v : R) (s : t) : t :=
    mk (y_now s) (period s) (slicing_per_period s) (u_boundary s) (kp s) (ki s)
       (kd s) (eta s) (input_signal s) (y_fore s) (y s) (error_now s) v
       (error_sum s) (errors s) (u_now s) (u_fore s).
Definition set_error_sum (v : R) (s : t) : t :=
    mk (y_now s) (period s) (slicing_per_period s) (u_boundary s) (kp s) (ki s)
       (kd s) (eta s) (input_signal s) (y_fore s) (y s) (error_now s)
       (error_fore s) v (errors s) (u_now s) (u_fore s).
Definition set_errors (v : list R) (s : t) : t :=
    mk (y_now s) (period s) (slicing_per_period s) (u_boundary s) (kp s) (ki s)
       (kd s) (eta s) (input_signal s) (y_fore s) (y s) (error_now s)
       (error_fore s) (error_sum s) v (u_now s) (u_fore s).
Definition set_u_now (v : R) (s : t) : t :=
    mk (y_now s) (period s) (slicing_per_period s) (u_boundary s) (kp s) (ki s)
       (kd s) (eta s) (input_signal s) (y_fore s) (y s) (error_now s)
       (error_fore s) (error_sum s) (errors s) v (u_fore s).
Definition set_u_fore (v : R) (s : t) : t :=
    mk (y_now s) (period s) (slicing_per_period s) (u_boundary s) (kp s) (ki s)
       (kd s) (eta s) (input_signal s) (y_fore s) (y s) (error_now s)
       (error_fore s) (error_sum s) (errors s) (u_now s) v.

  (** [__init_input_signal] *)
Definition init_input_signal (period slicing_per_period : Z) : Outcome (list R) :=
    do xs <- numpy.linspace 0 1 (period * slicing_per_period);
    Return (map (fun x => scipy.square (2 * PI * IZR period * x)) xs).

  (** [__update_u_now] *)
Definition update_u_now (self : t) : t :=
    let u_next :=
      kp self * error_now self
      + ki self * error_sum self
      + kd self * (error_now self - error_fore self) in
    let u_next :=
      if Rlt_dec u_next (fst (u_boundary self)) then fst (u_boundary self)
      else if Rgt_dec u_next (snd (u_boundary self)) then snd (u_boundary self)
      else u_next in
    set_u_now u_next self.

  (** [__update_y_now] *)
Definition update_y_now (self : t) : t :=
    set_y_now
      (2.6 * y_now self
       - 1.2 * y_fore self
       + u_now self
       + 1.2 * u_fore self
       + eta self * y_now self
         * sin (u_now self + u_fore self + y_now self + y_fore self))
      self.

  (** [__init__], with [__init_system_parameter] inlined after the input
      signal is built. *)
Definition init (chromosome : Chromosome.t) (config : Config) : Outcome t :=
    let y_now0 := initial_y_now config in
    do signal <- init_input_signal (cfg_period config) (cfg_slicing_per_period config);
    do signal_0 <- getitem signal 0 IndexError_input_signal;
    let error_now0 := signal_0 - y_now0 in
    let self :=
      {| y_now := y_now0;
         period := cfg_period config;
         slicing_per_period := cfg_slicing_per_period config;
         u_boundary := cfg_u_boundary config;
         kp := Chromosome.kp chromosome;
         ki := Chromosome.ki chromosome;
         kd := Chromosome.kd chromosome;
         eta := Chromosome.eta chromosome;
         input_signal := signal;
         y_fore := 0;
         y := [y_now0];
         error_now := error_now0;
         error_fore := 0;
         error_sum := 0;
         errors := [error_now0];
         u_now := 0;
         u_fore := 0 |} in
    let self := update_u_now self in
    Return (set_u_fore 0 self).

  (** One iteration of the loop of [run]. *)
Definition run_body (index : nat) (self : t) : Outcome t :=
    let self := update_y_now self in
    do signal_i <- getitem (input_signal self) index IndexError_input_signal;
    let self := set_error_now (signal_i - y_now self) self in
    let self := update_u_now self in
    let self := set_error_sum (error_sum self + error_now self) self in
    let self := set_errors (errors self ++ [error_now self]) self in
    let self := set_error_fore (error_now self) self in
    let self := set_y (y self ++ [y_now self]) self in
    let self := set_y_fore (y_now self) self in
    let self := set_u_fore (u_now self) self in
    Return self.

  (** The loop [for index in indices: ...] of [run]. *)
Fixpoint run_loop (indices : list nat) (self : t) : Outcome t :=
    match indices with
    | [] => Return self
    | index :: rest => do self <- run_body index self; run_loop rest self
    end.

  (** [run] *)
Definition run (self : t) : Outcome t :=
    run_loop (range 1 (period self * slicing_per_period self)) self.

  (** [get_fitness_value] *)
Definition get_fitness_value (self : t) : R :=
    numpy.sum (map Rabs (errors self)).

End ControlSystem.

(** ** numpy.random *)

Module random.

(** The bit generator: the successive raw outputs it will produce. *)
Definition Tape : Type := nat -> N.

(** [random_sample]: a raw output turned into one of the 2^53 doubles
    [k / 2^53] of the interval [0, 1). *)
Definition unit_sample (raw : N) : R :=
  IZR (Z.of_N (raw mod 2 ^ 53)) / IZR (2 ^ 53).

(** A raw output reduced to one of the integers of [low, high). *)
Definition bounded_sample (low high : Z) (raw : N) : Z :=
  (low + Z.of_N raw mod (high - low))%Z.

End random.

(** ** GeneticAlgorithm.py *)

Module GeneticAlgorithm.

(** A reference to a [Chromosome] object: its position in the store. *)
Abbreviation ref := nat (only parsing).

(** The configuration file: its [genetic-algorithm] keys and its
    [control-system] section. *)
Record Config : Type := {
  PID_boundary : R * R;
  cfg_eta_boundary : R * R;
  cfg_population_number : Z;
  cfg_mutation_probability : R;
  cfg_crossover_rate : R;
  control_system : ControlSystem.Config
}.

(** The attributes of a [GeneticAlgorithm] object. *)
Record t : Type := mk {
  pid_boundary : R * R;
  eta_boundary : R * R;
  population_number : Z;
  mutation_probability : R;
  crossover_rate : R;
  control_system_config : ControlSystem.Config;
  populations : list ref
}.

Definition set_populations (v : list ref) (self : t) : t :=
  mk (pid_boundary self) (eta_boundary self) (population_number self)
     (mutation_probability self) (crossover_rate self)
     (control_system_config self) v.

(** What the methods act on besides [self]: the [Chromosome] objects
    allocated so far, and how many cells of the tape have been drawn. *)
Record World : Type := {
  objects : list Chromosome.t;
  cursor : nat
}.

(** Computations that read and update the world and may raise; the world
    survives an exception. *)
Definition M (A : Type) : Type := World -> Outcome A * World.

Definition ret {A : Type} (a : A) : M A := fun w => (Return a, w).

Definition lift {A : Type} (o : Outcome A) : M A := fun w => (o, w).

Definition bind {A B : Type} (m : M A) (f : A -> M B) : M B :=
  fun w =>
    match m w with
    | (Return a, w') => f a w'
    | (Raise e, w') => (Raise e, w')
    end.

Notation "x <- m ;; f" := (bind m (fun x => f))
  (at level 100, m at next level, right associativity).

(** [l[i]] for a Python integer index: a negative index counts from the
    end of the list. *)
Definition getitem_int {A : Type} (l : list A) (i : Z) (e : Exception) : Outcome A :=
  if (0 <=? i)%Z then getitem l (Z.to_nat i) e
  else if (- Z.of_nat (length l) <=? i)%Z
       then getitem l (Z.to_nat (Z.of_nat (length l) + i)) e
       else Raise e.

(** Object store: [Chromosome(...)], attribute reads and attribute writes.
    A reference always denotes an allocated object; a read outside the
    store is reported as [Dangling_reference]. *)
Definition alloc (c : Chromosome.t) : M ref :=
  fun w => (Return (length (objects w)),
            {| objects := objects w ++ [c]; cursor := cursor w |}).

Definition load (r : ref) : M Chromosome.t :=
  fun w => (getitem (objects w) r Dangling_reference, w).

Definition store (r : ref) (c : Chromosome.t) : M unit :=
  fun w => (Return tt, {| objects := <[r := c]> (objects w); cursor := cursor w |}).

(** The attribute read [r.field]. *)
Definition getattr (field : Chromosome.t -> R) (r : ref) : M R :=
  c <- load r ;; ret (field c).

(** The doubles that the quotients [1 / 5], [2 / 5], [3 / 5] and [4 / 5] of
    [__cross_over] evaluate to: 3602879701896397 / 2^54,
    3602879701896397 / 2^53, 5404319552844595 / 2^53 and
    3602879701896397 / 2^52. *)
Definition one_fifth : R := 3602879701896397 / 18014398509481984.

Definition two_fifths : R := 3602879701896397 / 9007199254740992.

Definition three_fifths : R := 5404319552844595 / 9007199254740992.

Definition four_fifths : R := 3602879701896397 / 4503599627370496.

Section WithTape.

Variable tape : random.Tape.

Definition advance (w : World) : World :=
  {| objects := objects w; cursor := S (cursor w) |}.

(** [numpy.random.random()] *)
Definition random : M R :=
  fun w => (Return (random.unit_sample (tape (cursor w))), advance w).

(** [numpy.random.uniform(low, high)] *)
Definition uniform (low high : R) : M R :=
  fun w => (Return (low + (high - low) * random.unit_sample (tape (cursor w))),
            advance w).

(** [numpy.random.randint(low, high)] *)
Definition randint (low high : Z) : M Z :=
  fun w =>
    if (low <? high)%Z
    then (Return (random.bounded_sample low high (tape (cursor w))), advance w)
    else (Raise ValueError_randint, w).

(** [numpy.random.randint(low, high, size)] *)
Fixpoint randint_draws (low high : Z) (size : nat) : M (list Z) :=
  match size with
  | O => ret []
  | S size' =>
      x <- randint low high ;;
      xs <- randint_draws low high size' ;;
      ret (x :: xs)
  end.

Definition randint_array (low high : Z) (size : nat) : M (list Z) :=
  if (low <? high)%Z then randint_draws low high size
  else lift (Raise ValueError_randint).

(** [__check_boundary] *)
Definition check_boundary (value : R) (boundary : R * R) : R :=
  if Rlt_dec value (fst boundary) then fst boundary
  else if Rgt_dec value (snd boundary) then snd boundary
  else value.

(** [__mutation]: the chromosome is updated in place and returned. *)
Definition mutation (self : t) (chromosome : ref) : M ref :=
  value_scale_number <- uniform (-0.3) 0.3 ;;
  r1 <- random ;;
  if Rlt_dec r1 (mutation_probability self * 0.25) then
    c <- load chromosome ;;
    r <- random ;;
    _ <- store chromosome (Chromosome.set_kp (Chromosome.kp c + r * value_scale_number) c) ;;
    c <- load chromosome ;;
    _ <- store chromosome
           (Chromosome.set_kp (check_boundary (Chromosome.kp c) (pid_boundary self)) c) ;;
    ret chromosome
  else
    r2 <- random ;;
    if Rlt_dec r2 (mutation_probability self * 0.5) then
      c <- load chromosome ;;
      r <- random ;;
      _ <- store chromosome (Chromosome.set_ki (Chromosome.ki c + r * value_scale_number) c) ;;
      c <- load chromosome ;;
      _ <- store chromosome
             (Chromosome.set_ki (check_boundary (Chromosome.ki c) (pid_boundary self)) c) ;;
      ret chromosome
    else
      r3 <- random ;;
      if Rlt_dec r3 (mutation_probability self * 0.75) then
        c <- load chromosome ;;
        r <- random ;;
        _ <- store chromosome (Chromosome.set_kd (Chromosome.kd c + r * value_scale_number) c) ;;
        c <- load chromosome ;;
        _ <- store chromosome
               (Chromosome.set_kd (check_boundary (Chromosome.kd c) (pid_boundary self)) c) ;;
        ret chromosome
      else
        r4 <- random ;;
        if Rlt_dec r4 (mutation_probability self) then
          c <- load chromosome ;;
          r <- random ;;
          _ <- store chromosome
                 (Chromosome.set_eta (Chromosome.eta c + 4 * r * value_scale_number) c) ;;
          c <- load chromosome ;;
          _ <- store chromosome
                 (Chromosome.set_eta (check_boundary (Chromosome.eta c) (eta_boundary self)) c) ;;
          ret chromosome
        else ret chromosome.

(** [__cross_over]: one of the parents themselves, or a new object. *)
Definition cross_over (self : t) (parent_1 parent_2 : ref) : M ref :=
  r0 <- random ;;
  if Rgt_dec r0 (crossover_rate self) then ret parent_1
  else
    random_number <- random ;;
    if Rlt_dec random_number one_fifth then
      kp <- getattr Chromosome.kp parent_2 ;;
      ki <- getattr Chromosome.ki parent_1 ;;
      kd <- getattr Chromosome.kd parent_1 ;;
      eta <- getattr Chromosome.eta parent_2 ;;
      alloc (Chromosome.Chromosome kp ki kd eta)
    else if Rlt_dec random_number two_fifths then
      kp <- getattr Chromosome.kp parent_1 ;;
      ki <- getattr Chromosome.ki parent_2 ;;
      kd <- getattr Chromosome.kd parent_1 ;;
      eta <- getattr Chromosome.eta parent_2 ;;
      alloc (Chromosome.Chromosome kp ki kd eta)
    else if Rlt_dec random_number three_fifths then
      kp <- getattr Chromosome.kp parent_1 ;;
      ki <- getattr Chromosome.ki parent_1 ;;
      kd <- getattr Chromosome.kd parent_2 ;;
      eta <- getattr Chromosome.eta parent_1 ;;
      alloc (Chromosome.Chromosome kp ki kd eta)
    else if Rlt_dec random_number four_fifths then
      kp <- getattr Chromosome.kp parent_2 ;;
      ki <- getattr Chromosome.ki parent_1 ;;
      kd <- getattr Chromosome.kd parent_2 ;;
      eta <- getattr Chromosome.eta parent_1 ;;
      alloc (Chromosome.Chromosome kp ki kd eta)
    else ret parent_2.

(** The loop of [__select] over the drawn indices. *)
Fixpoint select_loop (fitness_values : list float) (indices : list Z)
    (selection_index : Z) : Outcome Z :=
  match indices with
  | [] => Return selection_index
  | index :: rest =>
      do f_index <- getitem_int fitness_values index IndexError_fitness_values;
      do f_selection <- getitem_int fitness_values selection_index
                          IndexError_fitness_values;
      select_loop fitness_values rest
        (if float_lt_dec f_index f_selection then index else selection_index)
  end.

(** [__select] *)
Definition select (fitness_values : list float) (k : nat) : M Z :=
  let high := (Z.of_nat (length fitness_values) - 1)%Z in
  selection_index <- randint 0 high ;;
  indices <- randint_array 0 high k ;;
  lift (select_loop fitness_values indices selection_index).

(** [calculate_fitness], for a Python integer index. *)
Definition calculate_fitness (self : t) (index : Z) : M float :=
  chromosome <- lift (getitem_int (populations self) index IndexError_populations) ;;
  c <- load chromosome ;;
  control_system <- lift (ControlSystem.init c (control_system_config self)) ;;
  control_system <- lift (ControlSystem.run control_system) ;;
  ret (Finite (ControlSystem.get_fitness_value control_system)).

(** The first loop of [produce_next_generation]. *)
Fixpoint fitness_loop (self : t) (indices : list nat) (fitness_values : list float)
    : M (list float) :=
  match indices with
  | [] => ret fitness_values
  | index :: rest =>
      f <- calculate_fitness self (Z.of_nat index) ;;
      fitness_loop self rest (fitness_values ++ [f])
  end.

(** One iteration of the second loop of [produce_next_generation]. *)
Definition offspring (self : t) (fitness_values : list float) : M ref :=
  parent_index <- select fitness_values 2 ;;
  parent_1 <- lift (getitem_int (populations self) parent_index IndexError_populations) ;;
  parent_2 <- lift (getitem_int (populations self) (parent_index + 1)
                      IndexError_populations) ;;
  new_population <- cross_over self parent_1 parent_2 ;;
  mutation self new_population.

(** The second loop of [produce_next_generation]. *)
Fixpoint offspring_loop (self : t) (fitness_values : list float) (indices : list nat)
    (new_populations : list ref) : M (list ref) :=
  match indices with
  | [] => ret new_populations
  | _ :: rest =>
      new_population <- offspring self fitness_values ;;
      offspring_loop self fitness_values rest (new_populations ++ [new_population])
  end.

(** [produce_next_generation]: the object with its population replaced. *)
Definition produce_next_generation (self : t) : M t :=
  fitness_values <- fitness_loop self (range 0 (population_number self)) [] ;;
  new_populations <-
    offspring_loop self fitness_values (range 0 (population_number self)) [] ;;
  ret (set_populations new_populations self).

(** The loop of [__generate_initial_population]. *)
Fixpoint initial_population_loop (self : t) (indices : list nat)
    (populations : list ref) : M (list ref) :=
  match indices with
  | [] => ret populations
  | _ :: rest =>
      kp <- uniform (fst (pid_boundary self)) (snd (pid_boundary self)) ;;
      ki <- uniform (fst (pid_boundary self)) (snd (pid_boundary self)) ;;
      kd <- uniform (fst (pid_boundary self)) (snd (pid_boundary self)) ;;
      eta <- uniform (fst (eta_boundary self)) (snd (eta_boundary self)) ;;
      chromosome <- alloc (Chromosome.Chromosome kp ki kd eta) ;;
      initial_population_loop self rest (populations ++ [chromosome])
  end.

(** [__generate_initial_population] *)
Definition generate_initial_population (self : t) : M t :=
  populations <- initial_population_loop self (range 0 (population_number self)) [] ;;
  ret (set_populations populations self).

(** [__init__] *)
Definition init (config : Config) : M t :=
  generate_initial_population
    {| pid_boundary := PID_boundary config;
       eta_boundary := cfg_eta_boundary config;
       population_number := cfg_population_number config;
       mutation_probability := cfg_mutation_probability config;
       crossover_rate := cfg_crossover_rate config;
       control_system_config := control_system config;
       populations := [] |}.

(** The value of [self] once a call has ended: the attribute
    [populations] is only assigned by a call that returns. *)
Definition after_call (self : t) (o : Outcome t) : t :=
  match o with
  | Return self' => self'
  | Raise _ => self
  end.

(** The states a [GeneticAlgorithm] built from [config] can be in:
    freshly constructed, or after one more call of
    [produce_next_generation], whether it returned or raised. *)
Inductive reachable (config : Config) : t -> World -> Prop :=
| reachable_init (w0 w : World) (self : t) :
    init config w0 = (Return self, w) ->
    reachable config self w
| reachable_next (self : t) (w w' : World) (o : Outcome t) :
    reachable config self w ->
    produce_next_generation self w = (o, w') ->
    reachable config (after_call self o) w'.

End WithTape.

End GeneticAlgorithm.

(** ** Vocabulary of the properties *)

Section SimulatorVocabulary.

Import ControlSystem.

(** The attributes that [run] never assigns. *)
Definition same_parameters (s s' : ControlSystem.t) : Prop :=
  period s' = period s /\ slicing_per_period s' = slicing_per_period s
  /\ u_boundary s' = u_boundary s /\ kp s' = kp s /\ ki s' = ki s
  /\ kd s' = kd s /\ eta s' = eta s /\ input_signal s' = input_signal s.

(** What one iteration of [run] leaves in each attribute, from the state
    [s] it starts in and the sample [signal_t] of the reference it reads:
    the plant law on the retained now/fore values, then the error, then the
    controller action from the error sum of [s], then the accumulation, the
    two histories and the three fore values. *)
Definition iteration_post (s s' : ControlSystem.t) (signal_t : R) : Prop :=
  let y' :=
    2.6 * y_now s - 1.2 * y_fore s + u_now s + 1.2 * u_fore s
    + eta s * y_now s * sin (u_now s + u_fore s + y_now s + y_fore s) in
  let e' := signal_t - y' in
  let u' :=
    clamp (kp s * e' + ki s * error_sum s + kd s * (e' - error_fore s))
          (fst (u_boundary s)) (snd (u_boundary s)) in
  y_now s' = y' /\ error_now s' = e' /\ u_now s' = u'
  /\ error_sum s' = error_sum s + e'
  /\ errors s' = errors s ++ [e'] /\ y s' = y s ++ [y']
  /\ error_fore s' = e' /\ y_fore s' = y' /\ u_fore s' = u'.

(** The state one iteration of [run] leaves, attribute by attribute. *)
Definition iteration_result (s : ControlSystem.t) (signal_t : R) : ControlSystem.t :=
  let y' :=
    2.6 * y_now s - 1.2 * y_fore s + u_now s + 1.2 * u_fore s
    + eta s * y_now s * sin (u_now s + u_fore s + y_now s + y_fore s) in
  let e' := signal_t - y' in
  let u' :=
    clamp (kp s * e' + ki s * error_sum s + kd s * (e' - error_fore s))
          (fst (u_boundary s)) (snd (u_boundary s)) in
  {| y_now := y'; period := period s; slicing_per_period := slicing_per_period s;
     u_boundary := u_boundary s; kp := kp s; ki := ki s; kd := kd s; eta := eta s;
     input_signal := input_signal s;
     y_fore := y'; y := y s ++ [y'];
     error_now := e'; error_fore := e'; error_sum := error_sum s + e';
     errors := errors s ++ [e'];
     u_now := u'; u_fore := u' |}.

(** The scenario of the specification: one period of four samples, a
    purely proportional controller and no nonlinear term. *)
Definition scenario_config : ControlSystem.Config :=
  {| initial_y_now := 0; cfg_period := 1; cfg_slicing_per_period := 4;
     cfg_u_boundary := (-1, 1) |}.

Definition scenario_chromosome : Chromosome.t := Chromosome.Chromosome 1 0 0 0.

(** The attributes of a simulator of the scenario that vary along a run. *)
Definition scenario_state (signal : list R) (y_now y_fore : R) (y : list R)
    (error_now error_fore error_sum : R) (errors : list R) (u_now u_fore : R)
    : ControlSystem.t :=
  {| y_now := y_now; period := 1; slicing_per_period := 4; u_boundary := (-1, 1);
     kp := 1; ki := 0; kd := 0; eta := 0;
     input_signal := signal;
     y_fore := y_fore; y := y;
     error_now := error_now; error_fore := error_fore; error_sum := error_sum;
     errors := errors;
     u_now := u_now; u_fore := u_fore |}.

(** The state of the scenario after construction. *)
Definition scenario_state_0 : ControlSystem.t :=
  scenario_state [1; 1; -1; 1] 0 0 [0] 1 0 0 [1] 1 0.

(** A configuration that asks for no sample at all. *)
Definition no_sample_config : ControlSystem.Config :=
  {| initial_y_now := 0; cfg_period := 0; cfg_slicing_per_period := 4;
     cfg_u_boundary := (-1, 1) |}.

(** Sample inputs of the genetic algorithm: generators whose raw outputs
    are all zero, all 2^52 (the draw 1/2), the position of the cell, and
    zero then 5404319552844595 (the draw that is the double 3/5); two
    distinct parents, and a configuration. *)
Definition zero_tape : random.Tape := fun _ => 0%N.

Definition half_tape : random.Tape := fun _ => 4503599627370496%N.

Definition counting_tape : random.Tape := fun cell => N.of_nat cell.

Definition edge_tape : random.Tape :=
  fun cell => match cell with O => 0%N | S _ => 5404319552844595%N end.

Definition sample_parent_1 : Chromosome.t := Chromosome.Chromosome 1 1 1 1.

Definition sample_parent_2 : Chromosome.t := Chromosome.Chromosome 2 2 2 2.

Definition sample_world : GeneticAlgorithm.World :=
  {| GeneticAlgorithm.objects := [sample_parent_1; sample_parent_2];
     GeneticAlgorithm.cursor := 0 |}.

Definition sample_algorithm (population_number : Z) (crossover_rate : R)
    : GeneticAlgorithm.t :=
  {| GeneticAlgorithm.pid_boundary := (0, 5);
     GeneticAlgorithm.eta_boundary := (0, 5);
     GeneticAlgorithm.population_number := population_number;
     GeneticAlgorithm.mutation_probability := 0.5;
     GeneticAlgorithm.crossover_rate := crossover_rate;
     GeneticAlgorithm.control_system_config := scenario_config;
     GeneticAlgorithm.populations := [0%nat; 1%nat] |}.

Definition sample_config (population_number : Z) : GeneticAlgorithm.Config :=
  {| GeneticAlgorithm.PID_boundary := (0, 5);
     GeneticAlgorithm.cfg_eta_boundary := (0, 5);
     GeneticAlgorithm.cfg_population_number := population_number;
     GeneticAlgorithm.cfg_mutation_probability := 0.5;
     GeneticAlgorithm.cfg_crossover_rate := 0.5;
     GeneticAlgorithm.control_system := scenario_config |}.

Definition empty_world : GeneticAlgorithm.World :=
  {| GeneticAlgorithm.objects := []; GeneticAlgorithm.cursor := 0 |}.

End SimulatorVocabulary.

Section GeneticVocabulary.

Import GeneticAlgorithm.

(** A value inside a configured boundary [min, max]. *)
Definition in_boundary (boundary : R * R) (v : R) : Prop :=
  fst boundary <= v <= snd boundary.

(** A chromosome whose three PID gains satisfy [Pk] and whose eta
    satisfies [Pe]. *)
Definition genes_satisfy (Pk Pe : R -> Prop) (c : Chromosome.t) : Prop :=
  Pk (Chromosome.kp c) /\ Pk (Chromosome.ki c) /\ Pk (Chromosome.kd c)
  /\ Pe (Chromosome.eta c).

(** All four genes inside the boundaries of [self]. *)
Definition in_bounds (self : GeneticAlgorithm.t) (c : Chromosome.t) : Prop :=
  genes_satisfy (in_boundary (pid_boundary self))
                (in_boundary (eta_boundary self)) c.

(** The reference [r] denotes an object of the world that satisfies [P]. *)
Definition holds (P : Chromosome.t -> Prop) (w : World) (r : ref) : Prop :=
  exists c, objects w !! r = Some c /\ P c.

(** Every reference that denoted an object satisfying [P] still does. *)
Definition preserved (P : Chromosome.t -> Prop) (w w' : World) : Prop :=
  forall r, holds P w r -> holds P w' r.

(** The five bands of the crossover table, between the thresholds [t1],
    [t2], [t3] and [t4]: the child [c] that the draw [r] selects from the
    parents [p1] and [p2]. *)
Definition bands (t1 t2 t3 t4 r : R) (p1 p2 c : Chromosome.t) : Prop :=
  (0 <= r < t1 ->
   c = Chromosome.Chromosome (Chromosome.kp p2) (Chromosome.ki p1)
                             (Chromosome.kd p1) (Chromosome.eta p2))
  /\ (t1 <= r < t2 ->
      c = Chromosome.Chromosome (Chromosome.kp p1) (Chromosome.ki p2)
                                (Chromosome.kd p1) (Chromosome.eta p2))
  /\ (t2 <= r < t3 ->
      c = Chromosome.Chromosome (Chromosome.kp p1) (Chromosome.ki p1)
                                (Chromosome.kd p2) (Chromosome.eta p1))
  /\ (t3 <= r < t4 ->
      c = Chromosome.Chromosome (Chromosome.kp p2) (Chromosome.ki p1)
                                (Chromosome.kd p2) (Chromosome.eta p1))
  /\ (t4 <= r < 1 -> c = p2).

(** The table of the program: the thresholds are the doubles the source
    compares the draw with. *)
Definition band_table (r : R) (p1 p2 c : Chromosome.t) : Prop :=
  bands one_fifth two_fifths three_fifths four_fifths r p1 p2 c.

(** The table of the specification: the thresholds are the fractions
    themselves. *)
Definition fifths_table (r : R) (p1 p2 c : Chromosome.t) : Prop :=
  bands (1 / 5) (2 / 5) (3 / 5) (4 / 5) r p1 p2 c.

(** The attributes that [__init__] copies from the configuration. *)
Definition configured (config : Config) (self : GeneticAlgorithm.t) : Prop :=
  pid_boundary self = PID_boundary config
  /\ eta_boundary self = cfg_eta_boundary config
  /\ population_number self = cfg_population_number config
  /\ mutation_probability self = cfg_mutation_probability config
  /\ crossover_rate self = cfg_crossover_rate config
  /\ control_system_config self = control_system config.

(** The population has its configured size and each of its references
    denotes an object that satisfies [P]. *)
Definition invariant (P : Chromosome.t -> Prop) (self : GeneticAlgorithm.t)
    (w : World) : Prop :=
  length (populations self) = Z.to_nat (population_number self)
  /\ Forall (holds P w) (populations self).

(** The number of samples of the simulations a configuration asks for. *)
Definition samples (config : Config) : Z :=
  (ControlSystem.cfg_period (control_system config)
   * ControlSystem.cfg_slicing_per_period (control_system config))%Z.

(** The property every gene has: [holds (genes_satisfy any_gene any_gene)]
    only says that a reference denotes an object. *)
Definition any_gene : R -> Prop := fun _ => True.


(** The fitness at a non-negative index. *)
Definition fitness_at (fitness_values : list float) (i : Z) : float :=
  nth (Z.to_nat i) fitness_values NaN.

(** A fitness that is a number or an infinity. *)
Definition is_number (v : float) : Prop := v <> NaN.

(** The indices a tournament over [n] fitness values examines, in the
    order it draws them from the world [w]: the baseline, then [k] more. *)
Definition candidate_pool (tape : random.Tape) (n : nat) (k : nat) (w : World)
    : list Z :=
  map (fun j => random.bounded_sample 0 (Z.of_nat n - 1) (tape (cursor w + j)%nat))
      (seq 0 (S k)).

End GeneticVocabulary.

(** * Properties of the simulator *)

Section ClampFacts.

Lemma clamp_bounds (v lo hi : R) : lo <= hi -> lo <= clamp v lo hi <= hi.
  Proof.
    intros Hb. unfold clamp.
    destruct (Rlt_dec v lo) as [Hlo | Hlo]; [lra |].
    destruct (Rgt_dec v hi) as [Hhi | Hhi]; lra.
  Qed.

Lemma clamp_inside (v lo hi : R) : lo <= v <= hi -> clamp v lo hi = v.
  Proof.
    intros Hv. unfold clamp.
    destruct (Rlt_dec v lo) as [Hlo | Hlo]; [lra |].
    destruct (Rgt_dec v hi) as [Hhi | Hhi]; lra.
  Qed.

Lemma clamp_below (v lo hi : R) : v < lo -> clamp v lo hi = lo.
  Proof. intros Hv. unfold clamp. destruct (Rlt_dec v lo); [reflexivity | lra]. Qed.

Lemma clamp_max_min (v lo hi : R) : lo <= hi -> clamp v lo hi = Rmax lo (Rmin v hi).
  Proof.
    intros Hb. unfold clamp, Rmax, Rmin.
    destruct (Rlt_dec v lo), (Rgt_dec v hi), (Rle_dec v hi);
      try lra; destruct (Rle_dec lo v); try lra; destruct (Rle_dec lo hi); lra.
  Qed.

End ClampFacts.

Section NumpyFacts.

Lemma linspace_length (start stop : R) (num : Z) :
    (0 <= num)%Z ->
    exists xs, numpy.linspace start stop num = Return xs
               /\ length xs = Z.to_nat num.
  Proof.
    intros Hnum. unfold numpy.linspace.
    destruct (Z.ltb_spec num 0) as [Hneg | _]; [lia |].
    eexists; split; [reflexivity |].
    destruct (1 <? num)%Z, (0 <? num - 1)%Z;
      rewrite ?length_insert, !length_map, length_seq; reflexivity.
  Qed.

Lemma linspace_negative (start stop : R) (num : Z) :
    (num < 0)%Z -> numpy.linspace start stop num = Raise ValueError_linspace.
  Proof.
    intros Hnum. unfold numpy.linspace.
    destruct (Z.ltb_spec num 0); [reflexivity | lia].
  Qed.

Lemma linspace_one (start stop : R) :
    numpy.linspace start stop 1 = Return [0 * (stop - start) + start].
  Proof. reflexivity. Qed.

  (** The square wave at the phase [2*pi*q], from the integer part of [q]. *)
Lemma square_phase (q : R) (z : Z) :
    IZR z <= q < IZR z + 1 ->
    scipy.square (2 * PI * q) = if Rlt_dec (q - IZR z) 0.5 then 1 else -1.
  Proof.
    intros Hq. pose proof PI_RGT_0 as Hpi.
    unfold scipy.square, numpy.mod_.
    replace (2 * PI * q / (2 * PI)) with q by (field; lra).
    rewrite (Zfloor_eq z q Hq).
    destruct (Rlt_dec (q - IZR z) 0.5) as [Hf | Hf];
      destruct (Rlt_dec _ _) as [Hm | Hm]; try reflexivity; exfalso; nra.
  Qed.

Lemma square_high (t q : R) (z : Z) :
  t = 2 * PI * q -> IZR z <= q < IZR z + 0.5 -> scipy.square t = 1.
Proof.
  intros -> Hq. rewrite (square_phase q z) by lra.
  destruct (Rlt_dec (q - IZR z) 0.5); [reflexivity | lra].
Qed.

Lemma square_low (t q : R) (z : Z) :
  t = 2 * PI * q -> IZR z + 0.5 <= q < IZR z + 1 -> scipy.square t = -1.
Proof.
  intros -> Hq. rewrite (square_phase q z) by lra.
  destruct (Rlt_dec (q - IZR z) 0.5); [lra | reflexivity].
Qed.

Lemma sum_singleton (x : R) : numpy.sum [x] = x.
  Proof. unfold numpy.sum. simpl. lra. Qed.

Lemma sum_fold_nonneg (l : list R) (acc : R) :
    0 <= acc -> 0 <= fold_left Rplus (map Rabs l) acc.
  Proof.
    revert acc. induction l as [| x l IH]; intros acc Hacc; simpl; [exact Hacc |].
    apply IH. pose proof (Rabs_pos x). lra.
  Qed.

End NumpyFacts.

(** Settling the comparisons of a concrete state, and comparing two
    concrete states attribute by attribute. *)
Ltac decide_comparisons :=
  repeat match goal with
         | |- context [Rlt_dec ?a ?b] => destruct (Rlt_dec a b); try (exfalso; lra)
         | |- context [Rgt_dec ?a ?b] => destruct (Rgt_dec a b); try (exfalso; lra)
         end.

Ltac same_state :=
  do 2 f_equal; try lra; repeat (f_equal; try lra).

Section SimulatorFacts.

Import ControlSystem.

Lemma same_parameters_refl (s : ControlSystem.t) : same_parameters s s.
Proof. repeat split. Qed.

Lemma same_parameters_trans (s1 s2 s3 : ControlSystem.t) :
  same_parameters s1 s2 -> same_parameters s2 s3 -> same_parameters s1 s3.
Proof. unfold same_parameters. intuition congruence. Qed.

Lemma init_input_signal_length (p n : Z) :
  (0 <= p * n)%Z ->
  exists signal, init_input_signal p n = Return signal
                 /\ length signal = Z.to_nat (p * n).
Proof.
  intros Hn. unfold init_input_signal.
  destruct (linspace_length 0 1 (p * n) Hn) as (xs & -> & Hlen).
  simpl. eexists; split; [reflexivity |]. now rewrite length_map.
Qed.

(** Construction succeeds as soon as there is one sample. *)
Lemma init_returns (chromosome : Chromosome.t) (config : Config) :
  (1 <= cfg_period config * cfg_slicing_per_period config)%Z ->
  exists self signal_0,
    init chromosome config = Return self
    /\ input_signal self !! 0%nat = Some signal_0
    /\ length (input_signal self)
       = Z.to_nat (cfg_period config * cfg_slicing_per_period config)
    /\ period self = cfg_period config
    /\ slicing_per_period self = cfg_slicing_per_period config
    /\ u_boundary self = cfg_u_boundary config
    /\ kp self = Chromosome.kp chromosome /\ ki self = Chromosome.ki chromosome
    /\ kd self = Chromosome.kd chromosome /\ eta self = Chromosome.eta chromosome
    /\ y_now self = initial_y_now config /\ y_fore self = 0 /\ u_fore self = 0
    /\ y self = [initial_y_now config]
    /\ error_now self = signal_0 - initial_y_now config
    /\ error_fore self = 0 /\ error_sum self = 0
    /\ errors self = [signal_0 - initial_y_now config]
    /\ u_now self
       = clamp (Chromosome.kp chromosome * (signal_0 - initial_y_now config)
                + Chromosome.ki chromosome * 0
                + Chromosome.kd chromosome * (signal_0 - initial_y_now config - 0))
               (fst (cfg_u_boundary config)) (snd (cfg_u_boundary config)).
Proof.
  intros HN. unfold init.
  destruct (init_input_signal_length (cfg_period config)
              (cfg_slicing_per_period config)) as (signal & -> & Hlen); [lia |].
  destruct signal as [| signal_0 signal]; [simpl in Hlen; lia |].
  simpl. eexists _, signal_0. repeat split; try reflexivity. exact Hlen.
Qed.

Lemma run_body_post (index : nat) (s : ControlSystem.t) (signal_t : R) :
  input_signal s !! index = Some signal_t ->
  exists s', run_body index s = Return s'
             /\ iteration_post s s' signal_t /\ same_parameters s s'.
Proof.
  intros Hsig. unfold run_body, getitem. simpl. rewrite Hsig. simpl.
  eexists; split; [reflexivity |].
  split; [| repeat split].
  unfold iteration_post, clamp. simpl. repeat split.
Qed.

Lemma run_body_result (index : nat) (s : ControlSystem.t) (signal_t : R) :
  input_signal s !! index = Some signal_t ->
  run_body index s = Return (iteration_result s signal_t).
Proof.
  intros Hsig. unfold run_body, getitem. simpl. rewrite Hsig. reflexivity.
Qed.

Lemma run_loop_app (l1 l2 : list nat) (s : ControlSystem.t) :
  run_loop (l1 ++ l2) s = (do s1 <- run_loop l1 s; run_loop l2 s1).
Proof.
  revert s. induction l1 as [| i l1 IH]; intros s; simpl; [reflexivity |].
  destruct (run_body i s) as [s1 | e]; simpl; [apply IH | reflexivity].
Qed.

(** Iterations over consecutive indices inside the reference signal all
    return, and each one appends one error and one output. *)
Lemma run_loop_seq (n a : nat) (s : ControlSystem.t) :
  (a + n <= length (input_signal s))%nat ->
  exists s', run_loop (seq a n) s = Return s'
             /\ same_parameters s s'
             /\ length (errors s') = (length (errors s) + n)%nat
             /\ length (y s') = (length (y s) + n)%nat.
Proof.
  revert a s. induction n as [| n IH]; intros a s Hlen; simpl.
  - exists s. rewrite !Nat.add_0_r. auto using same_parameters_refl.
  - destruct (lookup_lt_is_Some_2 (input_signal s) a) as [signal_a Hsig]; [lia |].
    destruct (run_body_post a s signal_a Hsig) as (s1 & -> & Hpost & Hsame).
    simpl.
    assert (Hsig1 : input_signal s1 = input_signal s) by apply Hsame.
    destruct (IH (S a) s1) as (s' & -> & Hsame' & Herr & Hy).
    { rewrite Hsig1. lia. }
    exists s'. split; [reflexivity |].
    destruct Hpost as (_ & _ & _ & _ & Herrs & Hys & _).
    rewrite Herr, Hy, Herrs, Hys, !length_app. simpl.
    split; [eapply same_parameters_trans; eassumption |]. lia.
Qed.

Lemma run_loop_nil (s : ControlSystem.t) : run_loop [] s = Return s.
Proof. reflexivity. Qed.

(** C1. With at least two samples, construction returns and the iterations
    of [run] are those of t = 1 .. N-1 in order; iteration t starts from the
    state left by the iterations before it, reads sample t of the reference
    signal, and leaves the attributes described by [iteration_post]: the
    plant law first, then the error, then the clamped controller action
    computed with the error sum that does not yet contain the new error,
    then the accumulation, the histories and the fore values. *)
Theorem run_iteration_order (chromosome : Chromosome.t) (config : Config) (t : nat) :
  (2 <= cfg_period config * cfg_slicing_per_period config)%Z ->
  (1 <= t <= Z.to_nat (cfg_period config * cfg_slicing_per_period config) - 1)%nat ->
  exists (self s s' : ControlSystem.t) (signal_t : R),
    init chromosome config = Return self
    /\ run self
       = run_loop
           (seq 1 (Z.to_nat (cfg_period config * cfg_slicing_per_period config) - 1))
           self
    /\ run_loop (seq 1 (t - 1)) self = Return s
    /\ same_parameters self s
    /\ input_signal self !! t = Some signal_t
    /\ run_body t s = Return s'
    /\ iteration_post s s' signal_t
    /\ run_loop (seq 1 t) self = Return s'.
Proof.
  intros HN Ht.
  destruct (init_returns chromosome config) as (self & s0 & Hinit & _ & Hlen & Hp & Hs & _);
    [lia |].
  destruct (run_loop_seq (t - 1) 1 self) as (s & Hs1 & Hsame & _); [lia |].
  destruct (lookup_lt_is_Some_2 (input_signal self) t) as [signal_t Hsig]; [lia |].
  assert (Hsig' : input_signal s !! t = Some signal_t).
  { destruct Hsame as (_ & _ & _ & _ & _ & _ & _ & ->). exact Hsig. }
  destruct (run_body_post t s signal_t Hsig') as (s' & Hbody & Hpost & _).
  exists self, s, s', signal_t.
  split; [exact Hinit |]. split; [unfold run, range; now rewrite Hp, Hs |].
  do 5 (split; [assumption |]).
  assert (Hseq : seq 1 t = seq 1 (t - 1) ++ [t]).
  { replace (seq 1 t) with (seq 1 (S (t - 1))) by (f_equal; lia).
    rewrite seq_S. do 2 f_equal. lia. }
  rewrite Hseq, run_loop_app, Hs1. simpl. now rewrite Hbody.
Qed.

Lemma run_iteration_order_witness :
  exists (self s s' : ControlSystem.t) (signal_t : R),
    init (Chromosome.Chromosome 1 0 0 0)
         {| initial_y_now := 0; cfg_period := 1; cfg_slicing_per_period := 4;
            cfg_u_boundary := (-1, 1) |} = Return self
    /\ run self = run_loop (seq 1 (Z.to_nat (1 * 4) - 1)) self
    /\ run_loop (seq 1 (2 - 1)) self = Return s
    /\ same_parameters self s
    /\ input_signal self !! 2%nat = Some signal_t
    /\ run_body 2 s = Return s'
    /\ iteration_post s s' signal_t
    /\ run_loop (seq 1 2) self = Return s'.
Proof.
  apply (run_iteration_order (Chromosome.Chromosome 1 0 0 0)
           {| initial_y_now := 0; cfg_period := 1; cfg_slicing_per_period := 4;
              cfg_u_boundary := (-1, 1) |} 2%nat); simpl; lia.
Defined.

(** [run] returns for every constructed system, and leaves one error and
    one output per sample. *)
Lemma run_returns (self : ControlSystem.t) :
  (1 <= length (input_signal self))%nat ->
  length (input_signal self) = Z.to_nat (period self * slicing_per_period self) ->
  exists final, run self = Return final
                /\ same_parameters self final
                /\ length (errors final)
                   = (length (errors self) + (length (input_signal self) - 1))%nat
                /\ length (y final)
                   = (length (y self) + (length (input_signal self) - 1))%nat.
Proof.
  intros H1 Hlen. unfold run, range. rewrite <- Hlen.
  apply run_loop_seq. lia.
Qed.

(** The fitness never compares below zero. *)
Lemma get_fitness_value_not_negative (self : ControlSystem.t) :
  ~ get_fitness_value self < 0.
Proof.
  unfold get_fitness_value, numpy.sum.
  pose proof (sum_fold_nonneg (errors self) 0). lra.
Qed.

Lemma scenario_signal : init_input_signal 1 4 = Return [1; 1; -1; 1].
Proof.
  unfold init_input_signal, numpy.linspace. simpl.
  change (1 * 4 - 1)%Z with 3%Z.
  rewrite (square_high (2 * PI * 1 * (0 * ((1 - 0) / 3) + 0)) 0 0) by lra.
  rewrite (square_high (2 * PI * 1 * (1 * ((1 - 0) / 3) + 0)) (1 / 3) 0) by lra.
  rewrite (square_low (2 * PI * 1 * ((1 + 1) * ((1 - 0) / 3) + 0)) (2 / 3) 0) by lra.
  rewrite (square_high (2 * PI * 1 * 1) 1 1) by lra.
  reflexivity.
Qed.

Lemma scenario_init :
  init scenario_chromosome scenario_config = Return scenario_state_0.
Proof.
  unfold init.
  change (cfg_period scenario_config) with 1%Z.
  change (cfg_slicing_per_period scenario_config) with 4%Z.
  rewrite scenario_signal.
  unfold scenario_state_0, scenario_state, getitem, update_u_now, set_u_now,
    set_u_fore.
  simpl. decide_comparisons; same_state.
Qed.

(** C6, as stated, fails: in the scenario the reference signal is not
    (+1, +1, -1, -1), whatever the run then produces. *)
Lemma scenario_signal_not_as_claimed :
  ~ (exists self final : ControlSystem.t,
        init scenario_chromosome scenario_config = Return self
        /\ input_signal self = [1; 1; -1; -1]
        /\ run self = Return final
        /\ length (errors final) = 4%nat).
Proof.
  intros (self & final & Hinit & Hsignal & _).
  rewrite scenario_init in Hinit. injection Hinit as <-.
  unfold scenario_state_0, scenario_state in Hsignal.
  cbn [input_signal] in Hsignal. injection Hsignal as H. lra.
Qed.

(** C6, amended. In the scenario the four samples of the reference signal
    are (+1, +1, -1, +1): the samples run over the closed interval [0, 1],
    so the last one falls on the start of the next period, where the wave is
    high again. The run returns with exactly four error values, and the
    fitness is the same for every run of the scenario. *)
Theorem scenario_run :
  exists self final : ControlSystem.t,
    init scenario_chromosome scenario_config = Return self
    /\ input_signal self = [1; 1; -1; 1]
    /\ run self = Return final
    /\ length (errors final) = 4%nat
    /\ (forall self' final' : ControlSystem.t,
          init scenario_chromosome scenario_config = Return self' ->
          run self' = Return final' ->
          get_fitness_value final' = get_fitness_value final).
Proof.
  destruct (run_returns scenario_state_0) as (final & Hrun & _ & Herrors & _);
    [simpl; lia | reflexivity |].
  exists scenario_state_0, final.
  split; [apply scenario_init |]. split; [reflexivity |].
  split; [exact Hrun |]. split; [exact Herrors |].
  intros self' final' Hinit Hrun'.
  rewrite scenario_init in Hinit. injection Hinit as <-.
  rewrite Hrun in Hrun'. now injection Hrun' as <-.
Qed.

(** A single sample: the loop of [run] has no index to visit. *)
Lemma single_sample_run (chromosome : Chromosome.t) (config : Config) :
  (cfg_period config * cfg_slicing_per_period config = 1)%Z ->
  exists (self : ControlSystem.t) (signal_0 : R),
    init chromosome config = Return self
    /\ input_signal self !! 0%nat = Some signal_0
    /\ range 1 (period self * slicing_per_period self) = []
    /\ run self = Return self
    /\ errors self = [signal_0 - initial_y_now config]
    /\ get_fitness_value self = Rabs (signal_0 - initial_y_now config).
Proof.
  intros HN.
  destruct (init_returns chromosome config)
    as (self & signal_0 & Hinit & Hsig & _ & Hp & Hs & _ & _ & _ & _ & _ & _
        & _ & _ & _ & _ & _ & _ & Herrors & _); [lia |].
  exists self, signal_0.
  assert (Hrange : range 1 (period self * slicing_per_period self) = []).
  { rewrite Hp, Hs, HN. reflexivity. }
  repeat split; try assumption.
  - unfold run. now rewrite Hrange.
  - unfold get_fitness_value. rewrite Herrors. apply sum_singleton.
Qed.

(** Without any sample the constructor itself raises. *)
Lemma init_no_sample (chromosome : Chromosome.t) (config : Config) :
  (cfg_period config * cfg_slicing_per_period config = 0)%Z ->
  init chromosome config = Raise IndexError_input_signal.
Proof.
  intros HN. unfold init, init_input_signal. rewrite HN. reflexivity.
Qed.

Lemma init_negative_samples (chromosome : Chromosome.t) (config : Config) :
  (cfg_period config * cfg_slicing_per_period config < 0)%Z ->
  init chromosome config = Raise ValueError_linspace.
Proof.
  intros HN. unfold init, init_input_signal.
  rewrite linspace_negative by exact HN. reflexivity.
Qed.

(** C8, as stated, fails: with a period of 0 the product is below 2, and
    the constructor raises on the first sample it reads, so that there is
    no system to run and no error history. *)
Lemma degenerate_run_counterexample :
  (cfg_period no_sample_config * cfg_slicing_per_period no_sample_config < 2)%Z
  /\ init scenario_chromosome no_sample_config = Raise IndexError_input_signal
  /\ ~ (exists self : ControlSystem.t,
          init scenario_chromosome no_sample_config = Return self
          /\ run self = Return self).
Proof.
  assert (H : init scenario_chromosome no_sample_config = Raise IndexError_input_signal)
    by (apply init_no_sample; reflexivity).
  split; [simpl; lia |]. split; [exact H |].
  intros (self & Hinit & _). rewrite H in Hinit. discriminate.
Qed.

(** C8, amended. For every chromosome and every configuration whose product
    period * slicing_per_period is positive and below 2, that is, exactly
    one sample, construction returns, the loop of [run] has no iteration
    and changes nothing, the error history is the initial error alone, and
    the fitness is its absolute value. *)
Theorem degenerate_run (chromosome : Chromosome.t) (config : Config) :
  (0 < cfg_period config * cfg_slicing_per_period config < 2)%Z ->
  exists (self : ControlSystem.t) (signal_0 : R),
    init chromosome config = Return self
    /\ input_signal self !! 0%nat = Some signal_0
    /\ range 1 (period self * slicing_per_period self) = []
    /\ run self = Return self
    /\ errors self = [signal_0 - initial_y_now config]
    /\ get_fitness_value self = Rabs (signal_0 - initial_y_now config).
Proof.
  intros HN. apply single_sample_run. lia.
Qed.

Lemma degenerate_run_witness :
  exists (self : ControlSystem.t) (signal_0 : R),
    init scenario_chromosome
         {| initial_y_now := 0.5; cfg_period := 1; cfg_slicing_per_period := 1;
            cfg_u_boundary := (-1, 1) |} = Return self
    /\ input_signal self !! 0%nat = Some signal_0
    /\ range 1 (period self * slicing_per_period self) = []
    /\ run self = Return self
    /\ errors self = [signal_0 - 0.5]
    /\ get_fitness_value self = Rabs (signal_0 - 0.5).
Proof.
  apply (degenerate_run scenario_chromosome
           {| initial_y_now := 0.5; cfg_period := 1; cfg_slicing_per_period := 1;
              cfg_u_boundary := (-1, 1) |}); simpl; lia.
Defined.

End SimulatorFacts.

(** * Properties of the genetic algorithm *)

Section FloatFacts.

Lemma float_lt_trans (a b c : float) : float_lt a b -> float_lt b c -> float_lt a c.
Proof. destruct a, b, c; simpl; try tauto. lra. Qed.

Lemma float_lt_le_trans (a b c : float) :
  float_lt a b -> float_le b c -> float_lt a c.
Proof. destruct a, b, c; simpl; try tauto. lra. Qed.

Lemma float_lt_le (a b : float) : float_lt a b -> float_le a b.
Proof. destruct a, b; simpl; try tauto. lra. Qed.

Lemma float_le_refl (a : float) : is_number a -> float_le a a.
Proof. unfold is_number. destruct a; simpl; try tauto. lra. Qed.

(** Among numbers the order is total; with NaN it is not. *)
Lemma float_not_lt_le (a b : float) :
  is_number a -> is_number b -> ~ float_lt a b -> float_le b a.
Proof. unfold is_number. destruct a, b; simpl; try tauto. lra. Qed.

End FloatFacts.

Section RandomFacts.

Lemma unit_sample_range (raw : N) : 0 <= random.unit_sample raw < 1.
Proof.
  unfold random.unit_sample.
  assert (Hm : (raw mod 2 ^ 53 < 2 ^ 53)%N) by (apply N.mod_lt; discriminate).
  assert (Hz : (0 <= Z.of_N (raw mod 2 ^ 53) < 2 ^ 53)%Z).
  { split; [apply N2Z.is_nonneg |].
    change (2 ^ 53)%Z with (Z.of_N (2 ^ 53)). now apply N2Z.inj_lt. }
  set (m := Z.of_N (raw mod 2 ^ 53)) in *.
  assert (Hden : 0 < IZR (2 ^ 53)) by (apply IZR_lt; lia).
  assert (Hlo : 0 <= IZR m) by (apply IZR_le; lia).
  assert (Hhi : IZR m < IZR (2 ^ 53)) by (apply IZR_lt; lia).
  split.
  - apply Rmult_le_pos; [exact Hlo |]. left. now apply Rinv_0_lt_compat.
  - apply (Rmult_lt_reg_r (IZR (2 ^ 53))); [exact Hden |].
    unfold Rdiv. rewrite Rmult_assoc, Rinv_l by lra. lra.
Qed.

Lemma unit_sample_zero : random.unit_sample 0 = 0.
Proof. unfold random.unit_sample. simpl. lra. Qed.

(** A draw is a multiple of 2^-53. *)
Lemma unit_sample_grid (raw : N) :
  exists k : Z, random.unit_sample raw = IZR k / 9007199254740992.
Proof. exists (Z.of_N (raw mod 2 ^ 53)). reflexivity. Qed.

Lemma unit_sample_half : random.unit_sample 4503599627370496 = 1 / 2.
Proof.
  unfold random.unit_sample.
  change (Z.of_N (4503599627370496 mod 2 ^ 53)) with 4503599627370496%Z.
  change (2 ^ 53)%Z with 9007199254740992%Z. lra.
Qed.

Lemma unit_sample_three_fifths :
  random.unit_sample 5404319552844595 = GeneticAlgorithm.three_fifths.
Proof. reflexivity. Qed.

(** On the grid of the draws, three of the four thresholds of the crossover
    separate the same draws as the fractions they stand for. The double
    3/5 is a draw itself, and lies below the fraction 3/5: it is the one
    draw that the two tests separate. *)
Lemma one_fifth_on_grid (k : Z) :
  IZR k / 9007199254740992 < GeneticAlgorithm.one_fifth
  <-> IZR k / 9007199254740992 < 1 / 5.
Proof.
  unfold GeneticAlgorithm.one_fifth.
  destruct (Z_le_gt_dec k 1801439850948198) as [H | H].
  - apply IZR_le in H. split; intros _; lra.
  - assert (H' : (1801439850948199 <= k)%Z) by lia.
    apply IZR_le in H'. split; intros; lra.
Qed.

Lemma two_fifths_on_grid (k : Z) :
  IZR k / 9007199254740992 < GeneticAlgorithm.two_fifths
  <-> IZR k / 9007199254740992 < 2 / 5.
Proof.
  unfold GeneticAlgorithm.two_fifths.
  destruct (Z_le_gt_dec k 3602879701896396) as [H | H].
  - apply IZR_le in H. split; intros _; lra.
  - assert (H' : (3602879701896397 <= k)%Z) by lia.
    apply IZR_le in H'. split; intros; lra.
Qed.

Lemma four_fifths_on_grid (k : Z) :
  IZR k / 9007199254740992 < GeneticAlgorithm.four_fifths
  <-> IZR k / 9007199254740992 < 4 / 5.
Proof.
  unfold GeneticAlgorithm.four_fifths.
  destruct (Z_le_gt_dec k 7205759403792793) as [H | H].
  - apply IZR_le in H. split; intros _; lra.
  - assert (H' : (7205759403792794 <= k)%Z) by lia.
    apply IZR_le in H'. split; intros; lra.
Qed.

Lemma three_fifths_on_grid (k : Z) :
  IZR k / 9007199254740992 <> GeneticAlgorithm.three_fifths ->
  IZR k / 9007199254740992 < GeneticAlgorithm.three_fifths
  <-> IZR k / 9007199254740992 < 3 / 5.
Proof.
  unfold GeneticAlgorithm.three_fifths. intros Hne.
  destruct (Z_le_gt_dec k 5404319552844594) as [H | H].
  - apply IZR_le in H. split; intros _; lra.
  - assert (H' : (5404319552844596 <= k)%Z).
    { destruct (Z.eq_dec k 5404319552844595%Z) as [-> | Hk]; [| lia].
      exfalso. apply Hne. reflexivity. }
    apply IZR_le in H'. split; intros; lra.
Qed.

Lemma three_fifths_below : 2 / 5 <= GeneticAlgorithm.three_fifths < 3 / 5.
Proof. unfold GeneticAlgorithm.three_fifths. lra. Qed.

Lemma bounded_sample_range (low high : Z) (raw : N) :
  (low < high)%Z -> (low <= random.bounded_sample low high raw < high)%Z.
Proof.
  intros H. unfold random.bounded_sample.
  pose proof (Z.mod_pos_bound (Z.of_N raw) (high - low)). lia.
Qed.

Lemma uniform_range (low high : R) (raw : N) :
  low <= high ->
  low <= low + (high - low) * random.unit_sample raw <= high.
Proof. intros H. pose proof (unit_sample_range raw). nra. Qed.

End RandomFacts.

Section MonadFacts.

Import GeneticAlgorithm.

Lemma bind_return {A B : Type} (m : M A) (f : A -> M B) (w w1 : World) (a : A) :
  m w = (Return a, w1) -> bind m f w = f a w1.
Proof. intros H. unfold bind. now rewrite H. Qed.

Lemma bind_raise {A B : Type} (m : M A) (f : A -> M B) (w w1 : World)
    (e : Exception) :
  m w = (Raise e, w1) -> bind m f w = (Raise e, w1).
Proof. intros H. unfold bind. now rewrite H. Qed.

Lemma load_live (r : ref) (w : World) (c : Chromosome.t) :
  objects w !! r = Some c -> load r w = (Return c, w).
Proof. intros H. unfold load, getitem. now rewrite H. Qed.

Lemma getattr_live (field : Chromosome.t -> R) (r : nat) (w : World)
    (c : Chromosome.t) :
  objects w !! r = Some c -> getattr field r w = (Return (field c), w).
Proof.
  intros H. unfold getattr. erewrite bind_return by (apply load_live; exact H).
  reflexivity.
Qed.

Lemma getitem_Some {A : Type} (l : list A) (i : nat) (e : Exception) (a : A) :
  l !! i = Some a -> getitem l i e = Return a.
Proof. intros H. unfold getitem. now rewrite H. Qed.

Lemma getitem_int_Some {A : Type} (l : list A) (i : Z) (e : Exception) (a : A) :
  (0 <= i)%Z -> l !! Z.to_nat i = Some a -> getitem_int l i e = Return a.
Proof.
  intros Hi H. unfold getitem_int.
  destruct (Z.leb_spec 0 i); [now apply getitem_Some | lia].
Qed.

Lemma getitem_int_outside {A : Type} (l : list A) (i : Z) (e : Exception) :
  (Z.of_nat (length l) <= i \/ i < - Z.of_nat (length l))%Z ->
  getitem_int l i e = Raise e.
Proof.
  intros Hi. unfold getitem_int, getitem.
  destruct (Z.leb_spec 0 i).
  - rewrite lookup_ge_None_2 by lia. reflexivity.
  - destruct (Z.leb_spec (- Z.of_nat (length l)) i); [lia | reflexivity].
Qed.

(** A negative index counts from the end of the list. *)
Lemma getitem_int_negative {A : Type} (l : list A) (i : Z) (e : Exception) :
  (- Z.of_nat (length l) <= i < 0)%Z ->
  getitem_int l i e = getitem_int l (Z.of_nat (length l) + i) e.
Proof.
  intros Hi. unfold getitem_int.
  destruct (Z.leb_spec 0 i); [lia |].
  destruct (Z.leb_spec (- Z.of_nat (length l)) i); [| lia].
  destruct (Z.leb_spec 0 (Z.of_nat (length l) + i)); [reflexivity | lia].
Qed.

End MonadFacts.

(** One step of a computation whose first action is known to return. *)
Ltac step :=
  erewrite bind_return by
    first [ reflexivity | apply load_live; eassumption
          | apply getattr_live; eassumption | eassumption ];
  cbv beta.

Section CrossOverFacts.

Import GeneticAlgorithm.

Variable tape : random.Tape.

Lemma cross_over_skipped (self : GeneticAlgorithm.t) (parent_1 parent_2 : ref)
    (w : World) :
  random.unit_sample (tape (cursor w)) > crossover_rate self ->
  cross_over tape self parent_1 parent_2 w = (Return parent_1, advance w).
Proof.
  intros Hr. unfold cross_over. step.
  destruct (Rgt_dec _ _); [reflexivity | contradiction].
Qed.

(** When the first draw does not exceed the crossover rate, a second draw
    selects the child from the band table; the child is a new object,
    except in the last band, where it is the second parent itself. *)
Lemma cross_over_performed (self : GeneticAlgorithm.t) (parent_1 parent_2 : ref)
    (w : World) (c1 c2 : Chromosome.t) :
  ~ random.unit_sample (tape (cursor w)) > crossover_rate self ->
  objects w !! parent_1 = Some c1 ->
  objects w !! parent_2 = Some c2 ->
  exists (child : ref) (c : Chromosome.t) (w' : World),
    cross_over tape self parent_1 parent_2 w = (Return child, w')
    /\ cursor w' = S (S (cursor w))
    /\ objects w' !! child = Some c
    /\ band_table (random.unit_sample (tape (S (cursor w)))) c1 c2 c
    /\ (child = parent_2 /\ objects w' = objects w
        \/ child = length (objects w) /\ objects w' = objects w ++ [c]).
Proof.
  intros Hr H1 H2.
  pose proof (unit_sample_range (tape (S (cursor w)))) as Hrange.
  unfold cross_over. step.
  destruct (Rgt_dec _ _) as [Hgt | _]; [contradiction |].
  step.
  change (cursor (advance w)) with (S (cursor w)).
  set (r := random.unit_sample (tape (S (cursor w)))) in *.
  assert (Horder : one_fifth < two_fifths /\ two_fifths < three_fifths
                   /\ three_fifths < four_fifths)
    by (unfold one_fifth, two_fifths, three_fifths, four_fifths; lra).
  destruct (Rlt_dec r one_fifth); [| destruct (Rlt_dec r two_fifths);
    [| destruct (Rlt_dec r three_fifths); [| destruct (Rlt_dec r four_fifths)]]].
  5: { exists parent_2, c2. eexists. split; [reflexivity |].
       split; [reflexivity |]. split; [exact H2 |].
       split; [| left; split; reflexivity].
       unfold band_table, bands.
       repeat split; intros; try reflexivity; exfalso; lra. }
  all: do 4 step; eexists _, _, _; (split; [reflexivity |]);
    (split; [reflexivity |]);
    (split; [cbn [objects advance]; rewrite lookup_app_r by reflexivity;
             rewrite Nat.sub_diag; reflexivity |]);
    (split; [| right; split; reflexivity]);
    unfold band_table, bands; repeat split; intros; try reflexivity; exfalso; lra.
Qed.

(** For every draw but the double 3/5, the table of the program is the one
    with the fractions as thresholds. *)
Lemma band_table_fifths (raw : N) (p1 p2 c : Chromosome.t) :
  random.unit_sample raw <> three_fifths ->
  band_table (random.unit_sample raw) p1 p2 c ->
  fifths_table (random.unit_sample raw) p1 p2 c.
Proof.
  destruct (unit_sample_grid raw) as (k & ->). intros Hne.
  pose proof (one_fifth_on_grid k) as G1. pose proof (two_fifths_on_grid k) as G2.
  pose proof (three_fifths_on_grid k Hne) as G3.
  pose proof (four_fifths_on_grid k) as G4.
  unfold band_table, fifths_table, bands.
  intros (B1 & B2 & B3 & B4 & B5).
  repeat split; intros [Hlo Hhi].
  - apply B1. split; [exact Hlo | now apply G1].
  - apply B2. split; [| now apply G2].
    apply Rnot_lt_le. intros Hlt. apply G1 in Hlt. lra.
  - apply B3. split; [| now apply G3].
    apply Rnot_lt_le. intros Hlt. apply G2 in Hlt. lra.
  - apply B4. split; [| now apply G4].
    apply Rnot_lt_le. intros Hlt. apply G3 in Hlt. lra.
  - apply B5. split; [| exact Hhi].
    apply Rnot_lt_le. intros Hlt. apply G4 in Hlt. lra.
Qed.

End CrossOverFacts.

Section CrossOverClaims.

Import GeneticAlgorithm.

(** C3, as stated, fails at one draw: 5404319552844595 / 2^53, the double
    that [3 / 5] evaluates to, lies in the band [2/5, 3/5) of the claim, but
    the test [random_number < 3 / 5] is false of it, and the child has the
    genes of the band [3/5, 4/5). *)
Lemma cross_over_band_counterexample :
  2 / 5 <= random.unit_sample (edge_tape 1%nat) < 3 / 5
  /\ ~ random.unit_sample (edge_tape 0%nat) > crossover_rate (sample_algorithm 2 1)
  /\ exists (child : ref) (w' : World),
       cross_over edge_tape (sample_algorithm 2 1) 0%nat 1%nat sample_world
       = (Return child, w')
       /\ objects w' !! child = Some (Chromosome.Chromosome 2 1 2 1)
       /\ ~ fifths_table (random.unit_sample (edge_tape 1%nat))
                         sample_parent_1 sample_parent_2
                         (Chromosome.Chromosome 2 1 2 1).
Proof.
  change (edge_tape 1%nat) with 5404319552844595%N.
  change (edge_tape 0%nat) with 0%N.
  rewrite unit_sample_three_fifths, unit_sample_zero.
  split; [apply three_fifths_below |]. split; [simpl; lra |].
  destruct (cross_over_performed edge_tape (sample_algorithm 2 1) 0%nat 1%nat
              sample_world sample_parent_1 sample_parent_2)
    as (child & c & w' & Hrun & _ & Hchild & Hband & _);
    [change (~ random.unit_sample 0 > 1); rewrite unit_sample_zero; lra
    | reflexivity | reflexivity |].
  exists child, w'. split; [exact Hrun |].
  change (edge_tape (S (cursor sample_world))) with 5404319552844595%N in Hband.
  rewrite unit_sample_three_fifths in Hband.
  destruct Hband as (_ & _ & _ & Hband & _).
  rewrite Hchild, Hband
    by (unfold three_fifths, four_fifths; lra).
  split; [reflexivity |].
  intros (_ & _ & Hthird & _).
  specialize (Hthird three_fifths_below).
  injection Hthird as Hkp. lra.
Qed.

(** C3, amended. Whenever crossover occurs, that is whenever the first draw
    does not exceed the crossover rate, exactly one more draw [r] is made,
    it lies in [0, 1), and the genes of the returned child are those the
    band table gives for [r] and the two parents, the bands being delimited
    by the doubles that 1/5, 2/5, 3/5 and 4/5 evaluate to. For every draw
    but 5404319552844595 / 2^53 this is the table with the fractions
    themselves; that draw gives the genes of the band [3/5, 4/5). *)
Theorem cross_over_band_table (tape : random.Tape) (self : GeneticAlgorithm.t)
    (parent_1 parent_2 : ref) (w : World) (c1 c2 : Chromosome.t) :
  objects w !! parent_1 = Some c1 ->
  objects w !! parent_2 = Some c2 ->
  ~ random.unit_sample (tape (cursor w)) > crossover_rate self ->
  0 <= random.unit_sample (tape (S (cursor w))) < 1
  /\ exists (child : ref) (c : Chromosome.t) (w' : World),
       cross_over tape self parent_1 parent_2 w = (Return child, w')
       /\ cursor w' = S (S (cursor w))
       /\ objects w' !! child = Some c
       /\ band_table (random.unit_sample (tape (S (cursor w)))) c1 c2 c
       /\ (random.unit_sample (tape (S (cursor w))) <> three_fifths ->
           fifths_table (random.unit_sample (tape (S (cursor w)))) c1 c2 c)
       /\ (random.unit_sample (tape (S (cursor w))) = three_fifths ->
           c = Chromosome.Chromosome (Chromosome.kp c2) (Chromosome.ki c1)
                                     (Chromosome.kd c2) (Chromosome.eta c1)).
Proof.
  intros H1 H2 Hr. split; [apply unit_sample_range |].
  destruct (cross_over_performed tape self parent_1 parent_2 w c1 c2 Hr H1 H2)
    as (child & c & w' & Hrun & Hcursor & Hchild & Hband & _).
  exists child, c, w'. do 4 (split; [assumption |]). split.
  - intros Hne. now apply band_table_fifths.
  - intros Heq. destruct Hband as (_ & _ & _ & Hband & _).
    apply Hband. rewrite Heq. unfold three_fifths, four_fifths. lra.
Qed.

Lemma cross_over_band_table_witness :
  0 <= random.unit_sample (half_tape 1%nat) < 1
  /\ exists (child : ref) (c : Chromosome.t) (w' : World),
       cross_over half_tape (sample_algorithm 2 1) 0%nat 1%nat sample_world
       = (Return child, w')
       /\ cursor w' = 2%nat
       /\ objects w' !! child = Some c
       /\ band_table (random.unit_sample (half_tape 1%nat))
                     sample_parent_1 sample_parent_2 c
       /\ (random.unit_sample (half_tape 1%nat) <> three_fifths ->
           fifths_table (random.unit_sample (half_tape 1%nat))
                        sample_parent_1 sample_parent_2 c)
       /\ (random.unit_sample (half_tape 1%nat) = three_fifths ->
           c = Chromosome.Chromosome 2 1 2 1).
Proof.
  apply (cross_over_band_table half_tape (sample_algorithm 2 1) 0%nat 1%nat
           sample_world sample_parent_1 sample_parent_2);
    [reflexivity | reflexivity |].
  change (~ random.unit_sample 4503599627370496 > 1).
  rewrite unit_sample_half. lra.
Defined.

(** With a crossover rate of 0 and a first draw of exactly 0, the test
    [random() > crossover_rate] fails and a child is bred: here its genes
    are not those of the first parent. C7, as stated, fails there. *)
Lemma crossover_rate_zero_counterexample :
  crossover_rate (sample_algorithm 2 0) = 0
  /\ objects sample_world !! 0%nat = Some sample_parent_1
  /\ exists (child : ref) (w' : World),
       cross_over zero_tape (sample_algorithm 2 0) 0%nat 1%nat sample_world
       = (Return child, w')
       /\ objects w' !! child = Some (Chromosome.Chromosome 2 1 1 2)
       /\ Chromosome.Chromosome 2 1 1 2 <> sample_parent_1.
Proof.
  split; [reflexivity |]. split; [reflexivity |].
  destruct (cross_over_performed zero_tape (sample_algorithm 2 0) 0%nat 1%nat
              sample_world sample_parent_1 sample_parent_2)
    as (child & c & w' & Hrun & _ & Hchild & Hband & _);
    [change (~ random.unit_sample 0 > 0); rewrite unit_sample_zero; lra
    | reflexivity | reflexivity |].
  exists child, w'. split; [exact Hrun |].
  destruct Hband as (Hband & _).
  change (zero_tape (S (cursor sample_world))) with 0%N in Hband.
  rewrite unit_sample_zero in Hband.
  rewrite Hchild, Hband by (unfold one_fifth; lra).
  split; [reflexivity |].
  intros Heq. injection Heq as Heq. lra.
Qed.

(** C7, amended. With a crossover rate of 0, every first draw above 0 makes
    crossover return the first parent itself, its genes unchanged, after
    that single draw. With a crossover rate of 1, whatever the draws,
    crossover makes its second draw and returns a child of the band table
    of the program: the branch that returns the first parent without
    crossover is never taken. *)
Theorem cross_over_rate_extremes (tape : random.Tape) (self : GeneticAlgorithm.t)
    (parent_1 parent_2 : ref) (w : World) (c1 c2 : Chromosome.t) :
  objects w !! parent_1 = Some c1 ->
  objects w !! parent_2 = Some c2 ->
  (crossover_rate self = 0 ->
   random.unit_sample (tape (cursor w)) > 0 ->
   cross_over tape self parent_1 parent_2 w = (Return parent_1, advance w)
   /\ objects (advance w) !! parent_1 = Some c1)
  /\ (crossover_rate self = 1 ->
      exists (child : ref) (c : Chromosome.t) (w' : World),
        cross_over tape self parent_1 parent_2 w = (Return child, w')
        /\ cursor w' = S (S (cursor w))
        /\ objects w' !! child = Some c
        /\ band_table (random.unit_sample (tape (S (cursor w)))) c1 c2 c).
Proof.
  intros H1 H2. split.
  - intros Hrate Hdraw. split; [| exact H1].
    apply cross_over_skipped. rewrite Hrate. exact Hdraw.
  - intros Hrate.
    destruct (cross_over_performed tape self parent_1 parent_2 w c1 c2)
      as (child & c & w' & Hrun & Hcursor & Hchild & Hband & _);
      [| exact H1 | exact H2 |].
    + rewrite Hrate. pose proof (unit_sample_range (tape (cursor w))). lra.
    + exists child, c, w'. auto.
Qed.

(** The two halves at work: a rate of 0 with a first draw of 1/2, and a
    rate of 1 with the same draws. *)
Lemma cross_over_rate_extremes_witness :
  (cross_over half_tape (sample_algorithm 2 0) 0%nat 1%nat sample_world
   = (Return 0%nat, advance sample_world)
   /\ objects (advance sample_world) !! 0%nat = Some sample_parent_1)
  /\ (exists (child : ref) (c : Chromosome.t) (w' : World),
        cross_over half_tape (sample_algorithm 2 1) 0%nat 1%nat sample_world
        = (Return child, w')
        /\ cursor w' = S (S (cursor sample_world))
        /\ objects w' !! child = Some c
        /\ band_table (random.unit_sample (half_tape (S (cursor sample_world))))
                      sample_parent_1 sample_parent_2 c).
Proof.
  split.
  - apply (proj1 (cross_over_rate_extremes half_tape (sample_algorithm 2 0)
                    0%nat 1%nat sample_world sample_parent_1 sample_parent_2
                    eq_refl eq_refl)); [reflexivity |].
    change (random.unit_sample 4503599627370496 > 0).
    rewrite unit_sample_half. lra.
  - apply (proj2 (cross_over_rate_extremes half_tape (sample_algorithm 2 1)
                    0%nat 1%nat sample_world sample_parent_1 sample_parent_2
                    eq_refl eq_refl)). reflexivity.
Defined.

End CrossOverClaims.

Section SelectFacts.

Import GeneticAlgorithm.

Variable tape : random.Tape.

Lemma randint_returns (low high : Z) (w : World) :
  (low < high)%Z ->
  randint tape low high w
  = (Return (random.bounded_sample low high (tape (cursor w))), advance w).
Proof.
  intros H. unfold randint. destruct (Z.ltb_spec low high); [reflexivity | lia].
Qed.

Lemma randint_raises (low high : Z) (w : World) :
  (high <= low)%Z -> randint tape low high w = (Raise ValueError_randint, w).
Proof.
  intros H. unfold randint. destruct (Z.ltb_spec low high); [lia | reflexivity].
Qed.

(** An array of draws takes the next cells of the tape, in order. *)
Lemma randint_draws_returns (low high : Z) (size : nat) (w : World) :
  (low < high)%Z ->
  randint_draws tape low high size w
  = (Return (map (fun j => random.bounded_sample low high (tape (cursor w + j)%nat))
                 (seq 0 size)),
     {| objects := objects w; cursor := (cursor w + size)%nat |}).
Proof.
  intros H. revert w. induction size as [| size IH]; intros w.
  - simpl. unfold ret. destruct w as [o c]. simpl. now rewrite Nat.add_0_r.
  - cbn [randint_draws]. erewrite bind_return by (apply randint_returns; exact H).
    erewrite bind_return by apply IH. unfold ret.
    cbn [seq map advance objects cursor].
    rewrite <- seq_shift, map_map, Nat.add_0_r.
    f_equal; [f_equal; f_equal | f_equal; lia].
    apply map_ext. intros j. do 2 f_equal. lia.
Qed.

Lemma getitem_int_valid (fitness_values : list float) (i : Z) (e : Exception) :
  (0 <= i < Z.of_nat (length fitness_values))%Z ->
  getitem_int fitness_values i e = Return (fitness_at fitness_values i).
Proof.
  intros Hi.
  destruct (lookup_lt_is_Some_2 fitness_values (Z.to_nat i)) as [x Hx]; [lia |].
  rewrite (getitem_int_Some _ _ _ x) by (lia || exact Hx).
  unfold fitness_at. now rewrite nth_lookup, Hx.
Qed.

Lemma fitness_at_number (fitness_values : list float) (i : Z) :
  Forall is_number fitness_values ->
  (0 <= i < Z.of_nat (length fitness_values))%Z ->
  is_number (fitness_at fitness_values i).
Proof.
  intros Hall Hi.
  destruct (lookup_lt_is_Some_2 fitness_values (Z.to_nat i)) as [x Hx]; [lia |].
  unfold fitness_at. rewrite nth_lookup, Hx.
  exact (Forall_lookup_1 _ _ _ _ Hall Hx).
Qed.

(** The loop of a tournament returns one of the candidates it examines,
    whatever the fitness values are. *)
Lemma select_loop_member (fitness_values : list float) (indices : list Z) :
  forall selection_index : Z,
    (0 <= selection_index < Z.of_nat (length fitness_values))%Z ->
    Forall (fun c => (0 <= c < Z.of_nat (length fitness_values))%Z) indices ->
    exists best : Z,
      select_loop fitness_values indices selection_index = Return best
      /\ In best (selection_index :: indices).
Proof.
  induction indices as [| index rest IH]; intros sel Hsel Hall.
  - exists sel. split; [reflexivity | now left].
  - inversion Hall as [| ? ? Hindex Hrest]; subst.
    cbn [select_loop].
    rewrite !getitem_int_valid by assumption. cbn [obind].
    destruct (float_lt_dec (fitness_at fitness_values index)
                           (fitness_at fitness_values sel)) as [Hlt | Hge].
    + destruct (IH index Hindex Hrest) as (best & Hrun & Hin).
      exists best. split; [exact Hrun | now right].
    + destruct (IH sel Hsel Hrest) as (best & Hrun & Hin).
      exists best. split; [exact Hrun |].
      destruct Hin as [Hin | Hin]; [now left | right; now right].
Qed.

(** Over fitness values that are numbers, the loop of a tournament returns
    the first of the candidates, in the order they are examined, whose
    fitness is minimal: the candidates before it are strictly worse, those
    after it are not better. *)
Lemma select_loop_first_minimum (fitness_values : list float) (indices : list Z) :
  Forall is_number fitness_values ->
  forall selection_index : Z,
    (0 <= selection_index < Z.of_nat (length fitness_values))%Z ->
    Forall (fun c => (0 <= c < Z.of_nat (length fitness_values))%Z) indices ->
    exists (best : Z) (before after : list Z),
      select_loop fitness_values indices selection_index = Return best
      /\ selection_index :: indices = before ++ best :: after
      /\ Forall (fun c => float_lt (fitness_at fitness_values best)
                                   (fitness_at fitness_values c)) before
      /\ Forall (fun c => float_le (fitness_at fitness_values best)
                                   (fitness_at fitness_values c)) after.
Proof.
  intros Hnumbers.
  induction indices as [| index rest IH]; intros sel Hsel Hall.
  - exists sel, [], []. repeat split; constructor.
  - inversion Hall as [| ? ? Hindex Hrest]; subst.
    cbn [select_loop].
    rewrite !getitem_int_valid by assumption. cbn [obind].
    destruct (float_lt_dec (fitness_at fitness_values index)
                           (fitness_at fitness_values sel)) as [Hlt | Hge].
    + destruct (IH index Hindex Hrest) as (best & b & a & Hrun & Hpool & Hb & Ha).
      exists best, (sel :: b), a. split; [exact Hrun |].
      split; [cbn [app]; now rewrite <- Hpool |].
      split; [| exact Ha]. constructor; [| exact Hb].
      destruct b as [| x b]; cbn [app] in Hpool; injection Hpool as Hx Hpool.
      * now rewrite <- Hx.
      * inversion Hb; subst. eapply float_lt_trans; eassumption.
    + destruct (IH sel Hsel Hrest) as (best & b & a & Hrun & Hpool & Hb & Ha).
      apply float_not_lt_le in Hge; [| now apply fitness_at_number ..].
      destruct b as [| x b]; cbn [app] in Hpool; injection Hpool as Hx Hpool.
      * exists best, [], (index :: rest). subst best.
        split; [exact Hrun |]. split; [reflexivity |].
        split; [constructor |]. constructor; [exact Hge |]. now rewrite Hpool.
      * exists best, (sel :: index :: b), a. subst x.
        split; [exact Hrun |]. split; [cbn [app]; now rewrite Hpool |].
        split; [| exact Ha].
        inversion Hb as [| ? ? Hbest Hb']; subst.
        constructor; [exact Hbest |].
        constructor; [eapply float_lt_le_trans; eassumption | exact Hb'].
Qed.

Lemma candidate_pool_range (n k : nat) (w : World) :
  (2 <= n)%nat ->
  Forall (fun c => (0 <= c <= Z.of_nat n - 2)%Z) (candidate_pool tape n k w).
Proof.
  intros Hn. unfold candidate_pool. apply Forall_map, Forall_forall.
  intros j _. cbn beta.
  pose proof (bounded_sample_range 0 (Z.of_nat n - 1) (tape (cursor w + j)%nat)).
  lia.
Qed.

(** A tournament over at least two fitness values makes its k + 1 draws,
    touches no object, and runs its loop over the candidate pool. *)
Lemma select_draws (fitness_values : list float) (k : nat) (w : World) :
  (2 <= length fitness_values)%nat ->
  exists (selection_index : Z) (indices : list Z),
    candidate_pool tape (length fitness_values) k w = selection_index :: indices
    /\ select tape fitness_values k w
       = (select_loop fitness_values indices selection_index,
          {| objects := objects w; cursor := (cursor w + S k)%nat |}).
Proof.
  intros Hn. set (n := length fitness_values) in *.
  assert (Hhigh : (0 < Z.of_nat n - 1)%Z) by lia.
  assert (Hpool : candidate_pool tape n k w
                  = random.bounded_sample 0 (Z.of_nat n - 1) (tape (cursor w))
                    :: map (fun j => random.bounded_sample 0 (Z.of_nat n - 1)
                                       (tape (cursor (advance w) + j)%nat))
                         (seq 0 k)).
  { unfold candidate_pool. cbn [seq map advance cursor].
    rewrite Nat.add_0_r. f_equal. rewrite <- seq_shift, map_map.
    apply map_ext. intros j. do 2 f_equal. lia. }
  eexists _, _. split; [exact Hpool |].
  unfold select. fold n.
  erewrite bind_return by (apply randint_returns; exact Hhigh).
  unfold randint_array. destruct (Z.ltb_spec 0 (Z.of_nat n - 1)); [| lia].
  erewrite bind_return by (apply randint_draws_returns; exact Hhigh).
  unfold lift. f_equal. cbn [advance objects cursor]. f_equal. lia.
Qed.

(** Whatever the fitness values, NaN included, a tournament over at least
    two of them returns an index of its candidate pool. *)
Lemma select_returns_index (fitness_values : list float) (k : nat) (w : World) :
  (2 <= length fitness_values)%nat ->
  exists best : Z,
    select tape fitness_values k w
    = (Return best, {| objects := objects w; cursor := (cursor w + S k)%nat |})
    /\ In best (candidate_pool tape (length fitness_values) k w)
    /\ (0 <= best <= Z.of_nat (length fitness_values) - 2)%Z.
Proof.
  intros Hn.
  pose proof (candidate_pool_range (length fitness_values) k w Hn) as Hrange.
  destruct (select_draws fitness_values k w Hn) as (sel & indices & Hpool & Hrun).
  rewrite Hpool in Hrange. inversion Hrange as [| ? ? Hbase Hdraws]; subst.
  destruct (select_loop_member fitness_values indices sel) as (best & Hloop & Hin).
  { lia. }
  { eapply Forall_impl; [exact Hdraws |]. cbn beta. intros c Hc. lia. }
  exists best. rewrite Hrun, Hloop, Hpool. split; [reflexivity |].
  split; [exact Hin |].
  rewrite List.Forall_forall in Hrange. apply Hrange. exact Hin.
Qed.

(** Over fitness values that are numbers, the index returned is the first
    minimum of the candidate pool. *)
Lemma select_returns (fitness_values : list float) (k : nat) (w : World) :
  (2 <= length fitness_values)%nat ->
  Forall is_number fitness_values ->
  exists (best : Z) (before after : list Z),
    select tape fitness_values k w
    = (Return best, {| objects := objects w; cursor := (cursor w + S k)%nat |})
    /\ candidate_pool tape (length fitness_values) k w = before ++ best :: after
    /\ Forall (fun c => float_lt (fitness_at fitness_values best)
                                 (fitness_at fitness_values c)) before
    /\ Forall (fun c => float_le (fitness_at fitness_values best)
                                 (fitness_at fitness_values c)) after
    /\ (0 <= best <= Z.of_nat (length fitness_values) - 2)%Z.
Proof.
  intros Hn Hnumbers.
  pose proof (candidate_pool_range (length fitness_values) k w Hn) as Hrange.
  destruct (select_draws fitness_values k w Hn) as (sel & indices & Hpool & Hrun).
  rewrite Hpool in Hrange. inversion Hrange as [| ? ? Hbase Hdraws]; subst.
  destruct (select_loop_first_minimum fitness_values indices Hnumbers sel)
    as (best & before & after & Hloop & Hsplit & Hb & Ha).
  { lia. }
  { eapply Forall_impl; [exact Hdraws |]. cbn beta. intros c Hc. lia. }
  exists best, before, after. rewrite Hrun, Hloop, Hpool, Hsplit.
  repeat split; try assumption.
  - rewrite Hsplit in Hrange. apply Forall_app in Hrange as [_ Hr].
    inversion Hr; subst. lia.
  - rewrite Hsplit in Hrange. apply Forall_app in Hrange as [_ Hr].
    inversion Hr; subst. lia.
Qed.

(** With fewer than two fitness values the first draw is refused. *)
Lemma select_raises (fitness_values : list float) (k : nat) (w : World) :
  (length fitness_values <= 1)%nat ->
  select tape fitness_values k w = (Raise ValueError_randint, w).
Proof.
  intros Hn. unfold select.
  erewrite bind_raise by (apply randint_raises; lia). reflexivity.
Qed.

End SelectFacts.

Section SelectClaims.

Import GeneticAlgorithm.

(** The candidates that the counting tape draws among three fitness
    values: the indices 0, 1 and 0. *)
Lemma counting_pool : candidate_pool counting_tape 3 2 empty_world = [0; 1; 0]%Z.
Proof. reflexivity. Qed.

(** C4, as stated for every non-empty fitness list, fails in two ways.
    With a single fitness value the tournament returns no index: its first
    draw, [randint(0, 0)], is refused. And a fitness that is NaN, which a
    simulation that overflows produces, is never replaced, since every
    comparison with NaN is false: the index returned is then that of a
    fitness that is not below or equal to the others examined. *)
Lemma select_counterexample :
  (select zero_tape [Finite 1] 2 empty_world = (Raise ValueError_randint, empty_world)
   /\ ~ (exists (best : Z) (w' : World),
           select zero_tape [Finite 1] 2 empty_world = (Return best, w')))
  /\ (select counting_tape [NaN; Finite 1; Finite 2] 2 empty_world
      = (Return 0%Z, {| objects := []; cursor := 3 |})
      /\ In 1%Z (candidate_pool counting_tape 3 2 empty_world)
      /\ ~ float_le (fitness_at [NaN; Finite 1; Finite 2] 0)
                    (fitness_at [NaN; Finite 1; Finite 2] 1)).
Proof.
  split.
  - assert (H : select zero_tape [Finite 1] 2 empty_world
                = (Raise ValueError_randint, empty_world))
      by (apply select_raises; reflexivity).
    split; [exact H |]. intros (best & w' & Hbest). congruence.
  - split; [reflexivity |]. split; [rewrite counting_pool; simpl; tauto |].
    simpl. tauto.
Qed.

(** C4, amended. For every fitness list of at least two values, none of
    them NaN, and every tape, tournament selection returns an index of its
    candidate pool (the baseline draw, then the k further draws) whose
    fitness is not above that of any candidate; the candidates examined
    before it have a strictly larger fitness, so that among equal minima the
    first seen is kept. *)
Theorem select_first_minimum (tape : random.Tape) (fitness_values : list float)
    (k : nat) (w : World) :
  (2 <= length fitness_values)%nat ->
  Forall is_number fitness_values ->
  exists (best : Z) (w' : World) (before after : list Z),
    select tape fitness_values k w = (Return best, w')
    /\ candidate_pool tape (length fitness_values) k w = before ++ best :: after
    /\ Forall (fun c => float_le (fitness_at fitness_values best)
                                 (fitness_at fitness_values c))
              (candidate_pool tape (length fitness_values) k w)
    /\ Forall (fun c => float_lt (fitness_at fitness_values best)
                                 (fitness_at fitness_values c)) before.
Proof.
  intros Hn Hnumbers.
  destruct (select_returns tape fitness_values k w Hn Hnumbers)
    as (best & before & after & Hrun & Hpool & Hb & Ha & Hrange).
  eexists best, _, before, after. split; [exact Hrun |].
  split; [exact Hpool |]. split; [| exact Hb].
  rewrite Hpool. apply Forall_app. split.
  - eapply Forall_impl; [exact Hb |]. cbn beta. intros c Hc.
    now apply float_lt_le.
  - constructor; [| exact Ha].
    apply float_le_refl, fitness_at_number; [exact Hnumbers | lia].
Qed.

(** A tournament that examines the indices 0, 1 and 0 of three distinct
    fitness values. *)
Lemma select_first_minimum_witness :
  exists (best : Z) (w' : World) (before after : list Z),
    select counting_tape [Finite 3; Finite 1; Finite 2] 2 empty_world
    = (Return best, w')
    /\ candidate_pool counting_tape (length [Finite 3; Finite 1; Finite 2]) 2
                      empty_world
       = before ++ best :: after
    /\ Forall (fun c => float_le (fitness_at [Finite 3; Finite 1; Finite 2] best)
                                 (fitness_at [Finite 3; Finite 1; Finite 2] c))
              (candidate_pool counting_tape
                 (length [Finite 3; Finite 1; Finite 2]) 2 empty_world)
    /\ Forall (fun c => float_lt (fitness_at [Finite 3; Finite 1; Finite 2] best)
                                 (fitness_at [Finite 3; Finite 1; Finite 2] c))
              before.
Proof.
  apply (select_first_minimum counting_tape [Finite 3; Finite 1; Finite 2] 2
           empty_world); [simpl; lia |].
  repeat constructor; discriminate.
Defined.



End SelectClaims.

(** ** What a generation preserves

    The properties [Pk] of a PID gain and [Pe] of an eta are only asked to
    hold of every clamped value and of every value of the initial sampling:
    taken as the configured boundaries they give the boundary invariant,
    taken as trivial they leave the mere existence of the objects. *)

Section Preservation.

Import GeneticAlgorithm.

Variable tape : random.Tape.
Variable self : GeneticAlgorithm.t.
Variables Pk Pe : R -> Prop.

Hypothesis clamped_pid : forall v, Pk (check_boundary v (pid_boundary self)).
Hypothesis clamped_eta : forall v, Pe (check_boundary v (eta_boundary self)).

Local Abbreviation P := (genes_satisfy Pk Pe).

Lemma preserved_refl (w : World) : preserved P w w.
Proof. intros r H. exact H. Qed.

Lemma preserved_trans (w1 w2 w3 : World) :
  preserved P w1 w2 -> preserved P w2 w3 -> preserved P w1 w3.
Proof. intros H12 H23 r H. apply H23, H12, H. Qed.

Lemma preserved_same_objects (w w' : World) :
  objects w' = objects w -> preserved P w w'.
Proof. intros Ho r (c & Hc & HP). exists c. now rewrite Ho. Qed.

Lemma preserved_alloc (w w' : World) (c : Chromosome.t) :
  objects w' = objects w ++ [c] -> preserved P w w'.
Proof.
  intros Ho r (c0 & Hc & HP). exists c0. rewrite Ho.
  split; [now apply lookup_app_l_Some | exact HP].
Qed.

Lemma preserved_insert (w w' : World) (r : nat) (c : Chromosome.t) :
  objects w' = <[r := c]> (objects w) -> P c -> preserved P w w'.
Proof.
  intros Ho Hc r0 (c0 & Hc0 & HP). unfold holds. rewrite Ho.
  destruct (decide (r = r0)) as [-> | Hne].
  - exists c. split; [| exact Hc].
    apply list_lookup_insert_eq. eapply lookup_lt_Some. exact Hc0.
  - exists c0. split; [| exact HP]. now rewrite list_lookup_insert_ne.
Qed.

Lemma holds_all_preserved (w w' : World) (l : list nat) :
  preserved P w w' -> Forall (holds P w) l -> Forall (holds P w') l.
Proof. intros Hp Hl. eapply Forall_impl; [exact Hl | exact Hp]. Qed.

(** [__mutation] returns the reference it was given; the object has at
    most one gene changed, and a changed gene is a clamped value. *)
Lemma mutation_returns (chromosome : nat) (w : World) (c : Chromosome.t) :
  objects w !! chromosome = Some c ->
  exists (c' : Chromosome.t) (w' : World),
    mutation tape self chromosome w = (Return chromosome, w')
    /\ objects w' = <[chromosome := c']> (objects w)
    /\ (c' = c
        \/ (exists v, c' = Chromosome.set_kp (check_boundary v (pid_boundary self)) c)
        \/ (exists v, c' = Chromosome.set_ki (check_boundary v (pid_boundary self)) c)
        \/ (exists v, c' = Chromosome.set_kd (check_boundary v (pid_boundary self)) c)
        \/ (exists v, c' = Chromosome.set_eta (check_boundary v (eta_boundary self)) c)).
Proof.
  intros Hc. destruct c as [kp ki kd eta].
  assert (Hlt : (chromosome < length (objects w))%nat)
    by (eapply lookup_lt_Some; exact Hc).
  unfold mutation. step. step.
  destruct (Rlt_dec _ _);
    [| step; destruct (Rlt_dec _ _);
       [| step; destruct (Rlt_dec _ _);
          [| step; destruct (Rlt_dec _ _) ]]].
  5: { eexists _, _. split; [reflexivity |]. split; [| left; reflexivity].
       cbn [objects advance]. symmetry. now apply list_insert_id. }
  all: step; step; step;
    (erewrite bind_return by
       (apply load_live; cbn [objects advance];
        apply list_lookup_insert_eq; exact Hlt));
    cbv beta; step;
    eexists _, _; (split; [reflexivity |]);
    cbn [objects advance Chromosome.kp Chromosome.ki Chromosome.kd
         Chromosome.eta Chromosome.set_kp Chromosome.set_ki Chromosome.set_kd
         Chromosome.set_eta];
    (split; [apply list_insert_insert_eq |]).
  - right; left. eexists. reflexivity.
  - right; right; left. eexists. reflexivity.
  - right; right; right; left. eexists. reflexivity.
  - right; right; right; right. eexists. reflexivity.
Qed.

Lemma mutation_preserves (chromosome : nat) (w : World) :
  holds P w chromosome ->
  exists w' : World,
    mutation tape self chromosome w = (Return chromosome, w')
    /\ preserved P w w' /\ holds P w' chromosome.
Proof.
  intros (c & Hc & Hk & Hi & Hd & He).
  destruct (mutation_returns chromosome w c Hc) as (c' & w' & Hrun & Ho & Hc').
  assert (HP : P c').
  { destruct Hc' as [-> | [(v & ->) | [(v & ->) | [(v & ->) | (v & ->)]]]];
      repeat split; cbn; auto. }
  exists w'. split; [exact Hrun |].
  split; [eapply preserved_insert; eassumption |].
  exists c'. split; [| exact HP].
  rewrite Ho. apply list_lookup_insert_eq. eapply lookup_lt_Some. exact Hc.
Qed.

Lemma band_table_satisfies (r : R) (c1 c2 c : Chromosome.t) :
  0 <= r < 1 -> band_table r c1 c2 c -> P c1 -> P c2 -> P c.
Proof.
  intros Hr (B1 & B2 & B3 & B4 & B5) (K1 & I1 & D1 & E1) (K2 & I2 & D2 & E2).
  destruct (Rlt_dec r one_fifth); [rewrite B1 by lra; repeat split; assumption |].
  destruct (Rlt_dec r two_fifths); [rewrite B2 by lra; repeat split; assumption |].
  destruct (Rlt_dec r three_fifths); [rewrite B3 by lra; repeat split; assumption |].
  destruct (Rlt_dec r four_fifths); [rewrite B4 by lra; repeat split; assumption |].
  rewrite B5 by lra. repeat split; assumption.
Qed.

Lemma cross_over_preserves (parent_1 parent_2 : nat) (w : World) :
  holds P w parent_1 -> holds P w parent_2 ->
  exists (child : nat) (w' : World),
    cross_over tape self parent_1 parent_2 w = (Return child, w')
    /\ preserved P w w' /\ holds P w' child.
Proof.
  intros H1 H2.
  destruct (Rgt_dec (random.unit_sample (tape (cursor w))) (crossover_rate self))
    as [Hgt | Hle].
  - exists parent_1, (advance w).
    split; [now apply cross_over_skipped |].
    split; [now apply preserved_same_objects |]. exact H1.
  - destruct H1 as (c1 & Hc1 & HP1). destruct H2 as (c2 & Hc2 & HP2).
    destruct (cross_over_performed tape self parent_1 parent_2 w c1 c2 Hle Hc1 Hc2)
      as (child & c & w' & Hrun & _ & Hchild & Hband & Hobjects).
    exists child, w'. split; [exact Hrun |].
    split.
    + destruct Hobjects as [(_ & Ho) | (_ & Ho)];
        [now apply preserved_same_objects | eapply preserved_alloc; exact Ho].
    + exists c. split; [exact Hchild |].
      eapply band_table_satisfies; [apply unit_sample_range | eassumption ..].
Qed.

(** One child: selection, the two reads of the population, crossover and
    mutation all return. *)
Lemma offspring_preserves (fitness_values : list float) (w : World) :
  (2 <= length fitness_values)%nat ->
  length (populations self) = length fitness_values ->
  Forall (holds P w) (populations self) ->
  exists (child : nat) (w' : World),
    offspring tape self fitness_values w = (Return child, w')
    /\ preserved P w w' /\ holds P w' child.
Proof.
  intros Hn Hlen Hall.
  destruct (select_returns_index tape fitness_values 2 w Hn)
    as (best & Hselect & _ & Hrange).
  set (w1 := {| objects := objects w; cursor := (cursor w + 3)%nat |}) in *.
  assert (Hw1 : preserved P w w1) by now apply preserved_same_objects.
  destruct (lookup_lt_is_Some_2 (populations self) (Z.to_nat best))
    as [p1 Hp1]; [lia |].
  destruct (lookup_lt_is_Some_2 (populations self) (Z.to_nat (best + 1)))
    as [p2 Hp2]; [lia |].
  assert (H1 : holds P w1 p1).
  { apply Hw1. eapply Forall_lookup_1; eassumption. }
  assert (H2 : holds P w1 p2).
  { apply Hw1. eapply Forall_lookup_1; eassumption. }
  destruct (cross_over_preserves p1 p2 w1 H1 H2)
    as (child & w2 & Hcross & Hw2 & Hchild).
  destruct (mutation_preserves child w2 Hchild) as (w3 & Hmut & Hw3 & Hchild').
  exists child, w3. split.
  - unfold offspring. step.
    erewrite bind_return
      by (unfold lift; rewrite (getitem_int_Some _ _ _ p1) by (lia || exact Hp1);
          reflexivity).
    erewrite bind_return
      by (unfold lift; rewrite (getitem_int_Some _ _ _ p2) by (lia || exact Hp2);
          reflexivity).
    step. exact Hmut.
  - split; [| exact Hchild'].
    eapply preserved_trans; [exact Hw1 |].
    eapply preserved_trans; eassumption.
Qed.

Lemma offspring_loop_preserves (fitness_values : list float) (indices : list nat) :
  (2 <= length fitness_values)%nat ->
  length (populations self) = length fitness_values ->
  forall (new_populations : list nat) (w : World),
    Forall (holds P w) (populations self) ->
    Forall (holds P w) new_populations ->
    exists (children : list nat) (w' : World),
      offspring_loop tape self fitness_values indices new_populations w
      = (Return children, w')
      /\ preserved P w w'
      /\ Forall (holds P w') children
      /\ length children = (length new_populations + length indices)%nat.
Proof.
  intros Hn Hlen.
  induction indices as [| index rest IH]; intros acc w Hpop Hacc.
  - exists acc, w. split; [reflexivity |]. split; [apply preserved_refl |].
    split; [exact Hacc |]. simpl. lia.
  - destruct (offspring_preserves fitness_values w Hn Hlen Hpop)
      as (child & w1 & Hchild & Hw1 & Hholds).
    destruct (IH (acc ++ [child]) w1) as (children & w' & Hrun & Hw' & Hall & Hl).
    { eapply holds_all_preserved; eassumption. }
    { apply Forall_app. split; [eapply holds_all_preserved; eassumption |].
      constructor; [exact Hholds | constructor]. }
    exists children, w'. split.
    + cbn [offspring_loop]. step. exact Hrun.
    + split; [eapply preserved_trans; eassumption |].
      split; [exact Hall |]. rewrite Hl, length_app. simpl. lia.
Qed.

(** The fitness of a live individual, when there is at least one sample. *)
Lemma calculate_fitness_returns (index : nat) (w : World) :
  (1 <= ControlSystem.cfg_period (control_system_config self)
        * ControlSystem.cfg_slicing_per_period (control_system_config self))%Z ->
  (index < length (populations self))%nat ->
  Forall (holds P w) (populations self) ->
  exists f : float, calculate_fitness self (Z.of_nat index) w = (Return f, w).
Proof.
  intros HN Hi Hall.
  destruct (lookup_lt_is_Some_2 (populations self) index) as [r Hr]; [exact Hi |].
  destruct (Forall_lookup_1 _ _ _ _ Hall Hr) as (c & Hc & _).
  destruct (init_returns c (control_system_config self) HN)
    as (cs & s0 & Hinit & Hs0 & Hlen & Hp & Hs & _).
  destruct (run_returns cs) as (final & Hrun & _).
  { rewrite Hlen. lia. }
  { now rewrite Hlen, Hp, Hs. }
  exists (Finite (ControlSystem.get_fitness_value final)).
  unfold calculate_fitness.
  erewrite bind_return
    by (unfold lift; rewrite (getitem_int_Some _ _ _ r) by (lia || now rewrite Nat2Z.id);
        reflexivity).
  step.
  erewrite bind_return by (unfold lift; rewrite Hinit; reflexivity).
  erewrite bind_return by (unfold lift; rewrite Hrun; reflexivity).
  reflexivity.
Qed.

Lemma fitness_loop_returns (indices : list nat) (w : World) :
  (1 <= ControlSystem.cfg_period (control_system_config self)
        * ControlSystem.cfg_slicing_per_period (control_system_config self))%Z ->
  Forall (fun index => (index < length (populations self))%nat) indices ->
  Forall (holds P w) (populations self) ->
  forall fitness_values : list float,
    exists fs : list float,
      fitness_loop self indices fitness_values w = (Return fs, w)
      /\ length fs = (length fitness_values + length indices)%nat.
Proof.
  intros HN Hidx Hall.
  induction indices as [| index rest IH]; intros acc.
  - exists acc. split; [reflexivity |]. simpl. lia.
  - inversion Hidx as [| ? ? Hi Hrest]; subst.
    destruct (calculate_fitness_returns index w HN Hi Hall) as (f & Hf).
    destruct (IH Hrest (acc ++ [f])) as (fs & Hrun & Hl).
    exists fs. split.
    + cbn [fitness_loop]. step. exact Hrun.
    + rewrite Hl, length_app. simpl. lia.
Qed.

Lemma range_0_length (n : Z) : length (range 0 n) = Z.to_nat n.
Proof. unfold range. rewrite length_seq. lia. Qed.

Lemma range_0_below (n : Z) :
  Forall (fun index => (index < Z.to_nat n)%nat) (range 0 n).
Proof.
  unfold range. apply Forall_forall. intros i Hi.
  apply list_elem_of_In, in_seq in Hi. lia.
Qed.

(** A generation over at least two individuals and at least one sample
    returns: only the population attribute is replaced, by as many
    children. *)
Lemma produce_next_generation_returns (w : World) :
  (2 <= population_number self)%Z ->
  (1 <= ControlSystem.cfg_period (control_system_config self)
        * ControlSystem.cfg_slicing_per_period (control_system_config self))%Z ->
  length (populations self) = Z.to_nat (population_number self) ->
  Forall (holds P w) (populations self) ->
  exists (children : list nat) (w' : World),
    produce_next_generation tape self w
    = (Return (set_populations children self), w')
    /\ preserved P w w'
    /\ Forall (holds P w') children
    /\ length children = Z.to_nat (population_number self).
Proof.
  intros Hpn HN Hlen Hall.
  destruct (fitness_loop_returns (range 0 (population_number self)) w HN)
    with (fitness_values := @nil float) as (fs & Hfs & Hfl); [| exact Hall |].
  { rewrite Hlen. apply range_0_below. }
  rewrite range_0_length in Hfl. simpl in Hfl.
  destruct (offspring_loop_preserves fs (range 0 (population_number self)))
    with (new_populations := @nil nat) (w := w)
    as (children & w' & Hrun & Hw' & Hch & Hl);
    [lia | lia | exact Hall | constructor |].
  rewrite range_0_length in Hl. simpl in Hl.
  exists children, w'. split.
  - unfold produce_next_generation. step. step. reflexivity.
  - auto.
Qed.

(** With a single individual, the fitness is computed and the first
    tournament is refused: nothing has changed when the call raises. *)
Lemma produce_next_generation_single (w : World) :
  population_number self = 1%Z ->
  (1 <= ControlSystem.cfg_period (control_system_config self)
        * ControlSystem.cfg_slicing_per_period (control_system_config self))%Z ->
  length (populations self) = 1%nat ->
  Forall (holds P w) (populations self) ->
  produce_next_generation tape self w = (Raise ValueError_randint, w).
Proof.
  intros Hpn HN Hlen Hall.
  destruct (fitness_loop_returns (range 0 (population_number self)) w HN)
    with (fitness_values := @nil float) as (fs & Hfs & Hfl); [| exact Hall |].
  { rewrite Hlen, Hpn. repeat constructor. }
  rewrite range_0_length, Hpn in Hfl. simpl in Hfl.
  unfold produce_next_generation. step. apply bind_raise.
  rewrite Hpn. change (range 0 1) with [0%nat]. cbn [offspring_loop].
  apply bind_raise. unfold offspring. apply bind_raise.
  apply select_raises. lia.
Qed.

(** Without individuals there is nothing to evaluate and nothing to
    breed. *)
Lemma produce_next_generation_empty (w : World) :
  (population_number self <= 0)%Z ->
  produce_next_generation tape self w = (Return (set_populations [] self), w).
Proof.
  intros Hpn. unfold produce_next_generation, range.
  replace (Z.to_nat (population_number self) - 0)%nat with 0%nat by lia.
  reflexivity.
Qed.

(** Without samples the first simulator cannot be constructed: the call
    raises before anything has changed. *)
Lemma produce_next_generation_no_sample (w : World) :
  (1 <= population_number self)%Z ->
  (ControlSystem.cfg_period (control_system_config self)
   * ControlSystem.cfg_slicing_per_period (control_system_config self) <= 0)%Z ->
  length (populations self) = Z.to_nat (population_number self) ->
  Forall (holds P w) (populations self) ->
  exists e : Exception,
    produce_next_generation tape self w = (Raise e, w)
    /\ e <> IndexError_populations.
Proof.
  intros Hpn HN Hlen Hall.
  destruct (populations self) as [| r rest] eqn:Hpop; [simpl in Hlen; lia |].
  inversion Hall as [| ? ? (c & Hc & _) _]; subst.
  assert (Hrange : range 0 (population_number self)
                   = 0%nat :: seq 1 (Z.to_nat (population_number self) - 1)).
  { unfold range. rewrite Nat.sub_0_r.
    replace (Z.to_nat (population_number self))
      with (S (Z.to_nat (population_number self) - 1)) at 1 by lia.
    reflexivity. }
  assert (Hinit : exists e, ControlSystem.init c (control_system_config self) = Raise e
                            /\ e <> IndexError_populations).
  { destruct (Z.eq_dec (ControlSystem.cfg_period (control_system_config self)
                        * ControlSystem.cfg_slicing_per_period
                            (control_system_config self))%Z 0%Z) as [H0 | H0].
    - exists IndexError_input_signal.
      split; [now apply init_no_sample | discriminate].
    - exists ValueError_linspace.
      split; [apply init_negative_samples; lia | discriminate]. }
  destruct Hinit as (e & Hinit & He). exists e. split; [| exact He].
  unfold produce_next_generation. rewrite Hrange. apply bind_raise.
  cbn [fitness_loop]. apply bind_raise.
  unfold calculate_fitness. rewrite Hpop.
  erewrite bind_return by reflexivity. step.
  apply bind_raise. unfold lift. now rewrite Hinit.
Qed.

End Preservation.

Section InitialPopulation.

Import GeneticAlgorithm.

Variable tape : random.Tape.
Variable self : GeneticAlgorithm.t.
Variables Pk Pe : R -> Prop.

Hypothesis sampled_pid :
  forall raw, Pk (fst (pid_boundary self)
                  + (snd (pid_boundary self) - fst (pid_boundary self))
                    * random.unit_sample raw).
Hypothesis sampled_eta :
  forall raw, Pe (fst (eta_boundary self)
                  + (snd (eta_boundary self) - fst (eta_boundary self))
                    * random.unit_sample raw).

Local Abbreviation P := (genes_satisfy Pk Pe).

Lemma initial_population_loop_returns (indices : list nat) :
  forall (populations : list nat) (w : World),
    Forall (holds P w) populations ->
    exists (chromosomes : list nat) (w' : World),
      initial_population_loop tape self indices populations w
      = (Return chromosomes, w')
      /\ Forall (holds P w') chromosomes
      /\ length chromosomes = (length populations + length indices)%nat.
Proof.
  induction indices as [| index rest IH]; intros acc w Hacc.
  - exists acc, w. split; [reflexivity |]. split; [exact Hacc |]. simpl. lia.
  - cbn [initial_population_loop]. do 5 step.
    match goal with
    | |- context [initial_population_loop _ _ _ ?acc' ?w'] =>
        destruct (IH acc' w') as (chromosomes & w2 & Hrun & Hall & Hl)
    end.
    { apply Forall_app. split.
      - eapply Forall_impl; [exact Hacc |]. intros r (c & Hc & HP).
        exists c. split; [| exact HP]. cbn [objects advance].
        now apply lookup_app_l_Some.
      - constructor; [| constructor]. eexists. split.
        + cbn [objects advance]. rewrite lookup_app_r by reflexivity.
          rewrite Nat.sub_diag. reflexivity.
        + repeat split; cbn; auto. }
    exists chromosomes, w2. split; [exact Hrun |]. split; [exact Hall |].
    rewrite Hl, length_app. simpl. lia.
Qed.

Lemma generate_initial_population_returns (w : World) :
  exists (chromosomes : list nat) (w' : World),
    generate_initial_population tape self w
    = (Return (set_populations chromosomes self), w')
    /\ invariant P (set_populations chromosomes self) w'.
Proof.
  destruct (initial_population_loop_returns (range 0 (population_number self)) [] w)
    as (chromosomes & w' & Hrun & Hall & Hl); [constructor |].
  exists chromosomes, w'. split.
  - unfold generate_initial_population. step. reflexivity.
  - split; [| exact Hall]. cbn. rewrite Hl, range_0_length. reflexivity.
Qed.

End InitialPopulation.

Section Reachability.

Import GeneticAlgorithm.

Variable tape : random.Tape.
Variable config : Config.
Variables Pk Pe : R -> Prop.

Hypothesis clamped_pid : forall v, Pk (check_boundary v (PID_boundary config)).
Hypothesis clamped_eta : forall v, Pe (check_boundary v (cfg_eta_boundary config)).
Hypothesis sampled_pid :
  forall raw, Pk (fst (PID_boundary config)
                  + (snd (PID_boundary config) - fst (PID_boundary config))
                    * random.unit_sample raw).
Hypothesis sampled_eta :
  forall raw, Pe (fst (cfg_eta_boundary config)
                  + (snd (cfg_eta_boundary config) - fst (cfg_eta_boundary config))
                    * random.unit_sample raw).

Local Abbreviation P := (genes_satisfy Pk Pe).

Lemma configured_set_populations (self : GeneticAlgorithm.t) (l : list nat) :
  configured config self -> configured config (set_populations l self).
Proof. intros H. exact H. Qed.

Lemma init_invariant (w0 w : World) (self : GeneticAlgorithm.t) :
  init tape config w0 = (Return self, w) ->
  configured config self /\ invariant P self w.
Proof.
  unfold init. intros Hinit.
  match type of Hinit with
  | generate_initial_population _ ?self0 _ = _ =>
      destruct (generate_initial_population_returns tape self0 Pk Pe
                  sampled_pid sampled_eta w0)
        as (chromosomes & w' & Hrun & Hinv)
  end.
  rewrite Hrun in Hinit. injection Hinit as <- <-.
  split; [repeat split | exact Hinv].
Qed.


(** Every call of [produce_next_generation], returning or raising, takes a
    configured object that satisfies the invariant to another one. *)
Lemma produce_next_generation_invariant (self : GeneticAlgorithm.t)
    (w w' : World) (o : Outcome GeneticAlgorithm.t) :
  configured config self -> invariant P self w ->
  produce_next_generation tape self w = (o, w') ->
  configured config (after_call self o) /\ invariant P (after_call self o) w'.
Proof.
  intros Hcfg (Hlen & Hall) Hrun.
  pose proof Hcfg as (Hpid & Heta & _ & _ & _ & _).
  assert (Hk : forall v, Pk (check_boundary v (pid_boundary self)))
    by (rewrite Hpid; exact clamped_pid).
  assert (He : forall v, Pe (check_boundary v (eta_boundary self)))
    by (rewrite Heta; exact clamped_eta).
  destruct (Z_le_gt_dec (population_number self) 0) as [Hp0 | Hp1].
  - rewrite produce_next_generation_empty in Hrun by exact Hp0.
    injection Hrun as <- <-. split; [exact Hcfg |].
    split; [cbn; lia | constructor].
  - destruct (Z_le_gt_dec
                (ControlSystem.cfg_period (control_system_config self)
                 * ControlSystem.cfg_slicing_per_period (control_system_config self))
                0) as [HN0 | HN1].
    + destruct (produce_next_generation_no_sample tape self Pk Pe w)
        as (e & Hraise & _); [lia | exact HN0 | exact Hlen | exact Hall |].
      rewrite Hraise in Hrun. injection Hrun as <- <-.
      split; [exact Hcfg | split; assumption].
    + destruct (Z.eq_dec (population_number self) 1%Z) as [H1 | Hn1].
      * rewrite (produce_next_generation_single tape self Pk Pe) in Hrun;
          [| exact H1 | lia | rewrite Hlen, H1; reflexivity | exact Hall].
        injection Hrun as <- <-. split; [exact Hcfg | split; assumption].
      * destruct (produce_next_generation_returns tape self Pk Pe Hk He w)
          as (children & w2 & Hret & _ & Hch & Hl);
          [lia | lia | exact Hlen | exact Hall |].
        rewrite Hret in Hrun. injection Hrun as <- <-.
        split; [exact Hcfg |]. split; [exact Hl | exact Hch].
Qed.

Lemma reachable_invariant (self : GeneticAlgorithm.t) (w : World) :
  reachable tape config self w -> configured config self /\ invariant P self w.
Proof.
  induction 1 as [w0 w self Hinit | self w w' o _ [Hcfg Hinv] Hrun].
  - eapply init_invariant. exact Hinit.
  - eapply produce_next_generation_invariant; eassumption.
Qed.

End Reachability.

Section GenerationClaims.

Import GeneticAlgorithm.

Lemma check_boundary_in_boundary (v : R) (boundary : R * R) :
  fst boundary <= snd boundary -> in_boundary boundary (check_boundary v boundary).
Proof.
  intros Hb. unfold in_boundary, check_boundary.
  destruct (Rlt_dec v (fst boundary)); [lra |].
  destruct (Rgt_dec v (snd boundary)); lra.
Qed.

Lemma reachable_in_bounds (tape : random.Tape) (config : Config)
    (self : GeneticAlgorithm.t) (w : World) :
  fst (PID_boundary config) <= snd (PID_boundary config) ->
  fst (cfg_eta_boundary config) <= snd (cfg_eta_boundary config) ->
  reachable tape config self w ->
  configured config self /\ invariant (in_bounds self) self w.
Proof.
  intros Hpid Heta Hreach.
  destruct (reachable_invariant tape config
              (in_boundary (PID_boundary config))
              (in_boundary (cfg_eta_boundary config))) with (self := self) (w := w)
    as (Hcfg & Hinv); try assumption.
  - intros v. now apply check_boundary_in_boundary.
  - intros v. now apply check_boundary_in_boundary.
  - intros raw. now apply uniform_range.
  - intros raw. now apply uniform_range.
  - split; [exact Hcfg |]. unfold in_bounds.
    destruct Hcfg as (-> & -> & _). exact Hinv.
Qed.

Lemma reachable_live (tape : random.Tape) (config : Config)
    (self : GeneticAlgorithm.t) (w : World) :
  reachable tape config self w ->
  configured config self /\ invariant (genes_satisfy any_gene any_gene) self w.
Proof.
  intros Hreach.
  apply (reachable_invariant tape config any_gene any_gene);
    try exact Hreach; intros; exact I.
Qed.

(** C2. With ordered boundaries, every chromosome of every population that
    a constructed genetic algorithm can reach, the initial one included,
    has its three gains inside the PID boundary and its eta inside the eta
    boundary; and from parents inside the boundaries, crossover returns a
    child inside them and mutation leaves the chromosome inside them. *)
Theorem boundaries_invariant (tape : random.Tape) (config : Config) :
  fst (PID_boundary config) <= snd (PID_boundary config) ->
  fst (cfg_eta_boundary config) <= snd (cfg_eta_boundary config) ->
  (forall (self : GeneticAlgorithm.t) (w : World),
      reachable tape config self w ->
      Forall (holds (in_bounds self) w) (populations self))
  /\ (forall (self : GeneticAlgorithm.t) (w : World) (parent_1 parent_2 : nat),
        configured config self ->
        holds (in_bounds self) w parent_1 ->
        holds (in_bounds self) w parent_2 ->
        exists (child : nat) (w' : World),
          cross_over tape self parent_1 parent_2 w = (Return child, w')
          /\ holds (in_bounds self) w' child)
  /\ (forall (self : GeneticAlgorithm.t) (w : World) (chromosome : nat),
        configured config self ->
        holds (in_bounds self) w chromosome ->
        exists w' : World,
          mutation tape self chromosome w = (Return chromosome, w')
          /\ holds (in_bounds self) w' chromosome).
Proof.
  intros Hpid Heta. split; [| split].
  - intros self w Hreach.
    now destruct (reachable_in_bounds tape config self w Hpid Heta Hreach)
      as (_ & _ & Hall).
  - intros self w p1 p2 _ H1 H2. unfold in_bounds in *.
    destruct (cross_over_preserves tape self _ _ p1 p2 w H1 H2)
      as (child & w' & Hrun & _ & Hchild).
    exists child, w'. split; assumption.
  - intros self w r (Hp & He & _) H. unfold in_bounds in *.
    destruct (mutation_preserves tape self
                (in_boundary (pid_boundary self))
                (in_boundary (eta_boundary self))) with (chromosome := r) (w := w)
      as (w' & Hrun & _ & Hr); try assumption.
    + intros v. apply check_boundary_in_boundary. now rewrite Hp.
    + intros v. apply check_boundary_in_boundary. now rewrite He.
    + exists w'. split; assumption.
Qed.

Lemma boundaries_invariant_witness :
  (forall (self : GeneticAlgorithm.t) (w : World),
      reachable zero_tape (sample_config 2) self w ->
      Forall (holds (in_bounds self) w) (populations self))
  /\ (forall (self : GeneticAlgorithm.t) (w : World) (parent_1 parent_2 : nat),
        configured (sample_config 2) self ->
        holds (in_bounds self) w parent_1 ->
        holds (in_bounds self) w parent_2 ->
        exists (child : nat) (w' : World),
          cross_over zero_tape self parent_1 parent_2 w = (Return child, w')
          /\ holds (in_bounds self) w' child)
  /\ (forall (self : GeneticAlgorithm.t) (w : World) (chromosome : nat),
        configured (sample_config 2) self ->
        holds (in_bounds self) w chromosome ->
        exists w' : World,
          mutation zero_tape self chromosome w = (Return chromosome, w')
          /\ holds (in_bounds self) w' chromosome).
Proof.
  apply (boundaries_invariant zero_tape (sample_config 2)); simpl; lra.
Defined.




(** C9. With a configured population of one, in every reachable state and
    for every tape, [produce_next_generation] ends without any read outside
    the population: it raises before it reads
    [populations[parent_index + 1]], and leaves the world as it was. With
    at least one sample the exception is that of the tournament, whose
    first draw [randint(0, 0)] is refused. *)
Theorem single_population_no_index_error (tape : random.Tape) (config : Config)
    (self : GeneticAlgorithm.t) (w : World) :
  cfg_population_number config = 1%Z ->
  reachable tape config self w ->
  exists e : Exception,
    produce_next_generation tape self w = (Raise e, w)
    /\ e <> IndexError_populations
    /\ ((1 <= samples config)%Z -> e = ValueError_randint).
Proof.
  intros Hpn Hreach.
  destruct (reachable_live tape config self w Hreach)
    as ((_ & _ & Hnumber & _ & _ & Hcs) & Hlen & Hall).
  rewrite Hpn in Hnumber.
  destruct (Z_le_gt_dec (samples config) 0) as [HN0 | HN1].
  - destruct (produce_next_generation_no_sample tape self any_gene any_gene w)
      as (e & Hraise & He); try assumption.
    + lia.
    + rewrite Hcs. exact HN0.
    + exists e. split; [exact Hraise |]. split; [exact He |]. lia.
  - exists ValueError_randint.
    split; [| split; [discriminate | reflexivity]].
    apply (produce_next_generation_single tape self any_gene any_gene);
      try assumption.
    + rewrite Hcs. unfold samples in HN1. lia.
    + rewrite Hlen, Hnumber. reflexivity.
Qed.

Lemma single_population_no_index_error_witness :
  exists (self : GeneticAlgorithm.t) (w : World),
    init zero_tape (sample_config 1) empty_world = (Return self, w)
    /\ exists e : Exception,
         produce_next_generation zero_tape self w = (Raise e, w)
         /\ e <> IndexError_populations
         /\ ((1 <= samples (sample_config 1))%Z -> e = ValueError_randint).
Proof.
  eexists _, _. split; [reflexivity |].
  apply (single_population_no_index_error zero_tape (sample_config 1));
    [reflexivity |].
  eapply reachable_init with (w0 := empty_world). reflexivity.
Defined.

End GenerationClaims.

(** * Further properties of the simulator *)

Section SimulatorHistories.

Import ControlSystem.

(** Construction followed by [run] returns whenever there is a sample, and
    leaves exactly one error and one output per sample; the gains, the
    boundary and the reference signal are those of the construction. *)
Theorem run_history_lengths (chromosome : Chromosome.t) (config : Config) :
  (1 <= cfg_period config * cfg_slicing_per_period config)%Z ->
  exists self final : ControlSystem.t,
    init chromosome config = Return self
    /\ run self = Return final
    /\ length (errors final)
       = Z.to_nat (cfg_period config * cfg_slicing_per_period config)
    /\ length (y final)
       = Z.to_nat (cfg_period config * cfg_slicing_per_period config)
    /\ length (input_signal final)
       = Z.to_nat (cfg_period config * cfg_slicing_per_period config)
    /\ same_parameters self final.
Proof.
  intros HN.
  destruct (init_returns chromosome config HN)
    as (self & s0 & Hinit & _ & Hlen & Hp & Hs & _ & _ & _ & _ & _ & _ & _ & _
        & Hy & _ & _ & _ & Herrors & _).
  destruct (run_returns self) as (final & Hrun & Hsame & Hle & Hly).
  { rewrite Hlen. lia. }
  { now rewrite Hlen, Hp, Hs. }
  exists self, final. split; [exact Hinit |]. split; [exact Hrun |].
  rewrite Hle, Hly, Herrors, Hy, Hlen. cbn [length].
  split; [lia |]. split; [lia |]. split; [| exact Hsame].
  destruct Hsame as (_ & _ & _ & _ & _ & _ & _ & ->). exact Hlen.
Qed.

Lemma run_history_lengths_witness :
  exists self final : ControlSystem.t,
    init scenario_chromosome scenario_config = Return self
    /\ run self = Return final
    /\ length (errors final) = Z.to_nat (1 * 4)
    /\ length (y final) = Z.to_nat (1 * 4)
    /\ length (input_signal final) = Z.to_nat (1 * 4)
    /\ same_parameters self final.
Proof.
  apply (run_history_lengths scenario_chromosome scenario_config). simpl. lia.
Defined.

Lemma fold_abs_zero (l : list R) :
  forall acc : R,
    0 <= acc ->
    fold_left Rplus (map Rabs l) acc = 0 ->
    acc = 0 /\ Forall (fun e => e = 0) l.
Proof.
  induction l as [| x l IH]; intros acc Hacc Hsum; simpl in Hsum.
  - split; [exact Hsum | constructor].
  - pose proof (Rabs_pos x) as Hx.
    destruct (IH (acc + Rabs x)) as (H0 & Hall); [lra | exact Hsum |].
    split; [lra |]. constructor; [| exact Hall].
    assert (Habs : Rabs x = 0) by lra.
    revert Habs. unfold Rabs. destruct (Rcase_abs x); lra.
Qed.

Lemma fold_abs_of_zeros (l : list R) :
  Forall (fun e => e = 0) l -> fold_left Rplus (map Rabs l) 0 = 0.
Proof.
  induction 1 as [| x l Hx _ IH]; simpl; [reflexivity |].
  subst x. rewrite Rabs_R0, Rplus_0_r. exact IH.
Qed.

(** The fitness never compares below zero, and it is zero exactly when
    every recorded error is zero. *)
Theorem fitness_value_sign (self : ControlSystem.t) :
  ~ get_fitness_value self < 0
  /\ (get_fitness_value self = 0 <-> Forall (fun e => e = 0) (errors self)).
Proof.
  split; [apply get_fitness_value_not_negative |].
  unfold get_fitness_value, numpy.sum. split.
  - intros H. apply (fold_abs_zero (errors self) 0); [lra | exact H].
  - apply fold_abs_of_zeros.
Qed.

(** With an ordered boundary, neither test of the clamp holds of the
    controller action after construction and after every iteration of
    [run]: it is not below the lower bound and not above the upper one.
    From the first iteration on the same goes for the retained previous
    action. *)
Theorem controller_action_bounded (chromosome : Chromosome.t) (config : Config)
    (t : nat) :
  fst (cfg_u_boundary config) <= snd (cfg_u_boundary config) ->
  (1 <= cfg_period config * cfg_slicing_per_period config)%Z ->
  (t <= Z.to_nat (cfg_period config * cfg_slicing_per_period config) - 1)%nat ->
  exists self s : ControlSystem.t,
    init chromosome config = Return self
    /\ run_loop (seq 1 t) self = Return s
    /\ ~ u_now s < fst (cfg_u_boundary config)
    /\ ~ u_now s > snd (cfg_u_boundary config)
    /\ ((1 <= t)%nat ->
        ~ u_fore s < fst (cfg_u_boundary config)
        /\ ~ u_fore s > snd (cfg_u_boundary config)).
Proof.
  intros Hb HN Ht.
  destruct (init_returns chromosome config HN)
    as (self & s0 & Hinit & _ & Hlen & _ & _ & Hub & _ & _ & _ & _ & _ & _ & _
        & _ & _ & _ & _ & _ & Hu).
  exists self. destruct t as [| t].
  - exists self. split; [exact Hinit |]. split; [reflexivity |].
    rewrite Hu.
    pose proof (clamp_bounds
                  (Chromosome.kp chromosome * (s0 - initial_y_now config)
                   + Chromosome.ki chromosome * 0
                   + Chromosome.kd chromosome * (s0 - initial_y_now config - 0))
                  _ _ Hb).
    split; [lra |]. split; [lra | lia].
  - destruct (run_loop_seq t 1 self) as (s1 & Hs1 & Hsame & _); [lia |].
    destruct (lookup_lt_is_Some_2 (input_signal s1) (S t)) as [sig Hsig].
    { destruct Hsame as (_ & _ & _ & _ & _ & _ & _ & ->). lia. }
    destruct (run_body_post (S t) s1 sig Hsig)
      as (s & Hbody & (_ & _ & Hun & _ & _ & _ & _ & _ & Huf) & _).
    exists s. split; [exact Hinit |].
    split.
    { rewrite seq_S, run_loop_app, Hs1. simpl. now rewrite Hbody. }
    assert (Hbound : u_boundary s1 = cfg_u_boundary config).
    { destruct Hsame as (_ & _ & -> & _). exact Hub. }
    rewrite Huf, Hun, Hbound.
    match goal with
    | |- context [clamp ?v _ _] => pose proof (clamp_bounds v _ _ Hb)
    end.
    split; [lra |]. split; [lra |]. intros _. split; lra.
Qed.

Lemma controller_action_bounded_witness :
  exists self s : ControlSystem.t,
    init scenario_chromosome scenario_config = Return self
    /\ run_loop (seq 1 2) self = Return s
    /\ ~ u_now s < fst (cfg_u_boundary scenario_config)
    /\ ~ u_now s > snd (cfg_u_boundary scenario_config)
    /\ ((1 <= 2)%nat ->
        ~ u_fore s < fst (cfg_u_boundary scenario_config)
        /\ ~ u_fore s > snd (cfg_u_boundary scenario_config)).
Proof.
  apply (controller_action_bounded scenario_chromosome scenario_config 2);
    simpl; (lra || lia).
Defined.

End SimulatorHistories.

Section ReferenceSignal.

Import ControlSystem.

(** The samples of [linspace(0, 1, num)]: as many as asked, the first at 0
    and, when there are at least two, the last at 1. *)
Lemma linspace_unit_interval (num : Z) :
  (1 <= num)%Z ->
  exists (xs : list R) (x0 : R),
    numpy.linspace 0 1 num = Return xs
    /\ length xs = Z.to_nat num
    /\ xs !! 0%nat = Some x0 /\ x0 = 0
    /\ ((2 <= num)%Z -> xs !! (Z.to_nat num - 1)%nat = Some 1).
Proof.
  intros Hnum.
  destruct (linspace_length 0 1 num) as (xs & Hrun & Hlen); [lia |].
  exists xs. revert Hrun. unfold numpy.linspace.
  destruct (Z.ltb_spec num 0) as [Hneg | _]; [lia |].
  destruct (Z.to_nat num) as [| n] eqn:Hn; [lia |].
  cbn [seq map]. rewrite Nat.sub_succ, Nat.sub_0_r.
  destruct (Z.ltb_spec 1 num) as [H2 | H1].
  - destruct (Z.ltb_spec 0 (num - 1)); [| lia].
    intros [= <-]. eexists. split; [reflexivity |].
    split; [rewrite length_insert; cbn [length]; rewrite !length_map, length_seq; lia |].
    split; [rewrite list_lookup_insert_ne by lia; reflexivity |].
    split; [simpl; lra |]. intros _.
    apply list_lookup_insert_eq. cbn [length].
    rewrite !length_map, length_seq. lia.
  - destruct (Z.ltb_spec 0 (num - 1)); [lia |].
    intros [= <-]. eexists. split; [reflexivity |].
    split; [cbn [length]; rewrite !length_map, length_seq; lia |].
    split; [reflexivity |]. split; [simpl; lra | lia].
Qed.

Lemma square_values (t : R) : scipy.square t = 1 \/ scipy.square t = -1.
Proof. unfold scipy.square. destruct (Rlt_dec _ _); auto. Qed.

Lemma init_input_signal_samples (period slicing_per_period : Z) :
  (1 <= period * slicing_per_period)%Z ->
  exists signal : list R,
    init_input_signal period slicing_per_period = Return signal
    /\ length signal = Z.to_nat (period * slicing_per_period)
    /\ Forall (fun v => v = 1 \/ v = -1) signal
    /\ signal !! 0%nat = Some 1.
Proof.
  intros HN. unfold init_input_signal.
  destruct (linspace_unit_interval (period * slicing_per_period) HN)
    as (xs & x0 & -> & Hlen & H0 & Hx0 & _).
  cbn [obind]. eexists. split; [reflexivity |].
  split; [now rewrite length_map |].
  split; [apply Forall_map, Forall_forall; intros x _; apply square_values |].
  rewrite list_lookup_fmap, H0. cbn. f_equal. subst x0.
  apply (square_high _ 0 0); lra.
Qed.

(** The reference signal has one sample per time step, each of them +1 or
    -1, and it starts high whatever the period. *)
Theorem reference_signal_shape (period slicing_per_period : Z) :
  (1 <= period * slicing_per_period)%Z ->
  exists signal : list R,
    init_input_signal period slicing_per_period = Return signal
    /\ length signal = Z.to_nat (period * slicing_per_period)
    /\ Forall (fun v => v = 1 \/ v = -1) signal
    /\ signal !! 0%nat = Some 1.
Proof. apply init_input_signal_samples. Qed.

Lemma reference_signal_shape_witness :
  exists signal : list R,
    init_input_signal 3 5 = Return signal
    /\ length signal = Z.to_nat (3 * 5)
    /\ Forall (fun v => v = 1 \/ v = -1) signal
    /\ signal !! 0%nat = Some 1.
Proof. apply (reference_signal_shape 3 5). lia. Defined.



End ReferenceSignal.

Section SimulatorInvariants.

Import ControlSystem.

Lemma init_first_sample (chromosome : Chromosome.t) (config : Config) :
  (1 <= cfg_period config * cfg_slicing_per_period config)%Z ->
  exists self : ControlSystem.t,
    init chromosome config = Return self
    /\ input_signal self !! 0%nat = Some 1.
Proof.
  intros HN.
  destruct (init_input_signal_samples (cfg_period config)
              (cfg_slicing_per_period config) HN)
    as (signal & Hsignal & _ & _ & H0).
  unfold init. rewrite Hsignal. cbn [obind].
  rewrite (getitem_Some _ _ _ _ H0). cbn [obind].
  eexists. split; [reflexivity |]. exact H0.
Qed.

(** At construction the initial error is e0 = 1 - y0, whatever the period:
    the integral term multiplies an empty error sum and the derivative term
    is taken against a previous error of 0, so that it sees the whole
    initial error: the first action is
    clamp(kp * e0 + ki * 0 + kd * (e0 - 0)). *)
Theorem initial_controller_action (chromosome : Chromosome.t) (config : Config) :
  (1 <= cfg_period config * cfg_slicing_per_period config)%Z ->
  exists self : ControlSystem.t,
    init chromosome config = Return self
    /\ errors self = [1 - initial_y_now config]
    /\ error_now self = 1 - initial_y_now config
    /\ error_sum self = 0
    /\ u_fore self = 0
    /\ u_now self
       = clamp (Chromosome.kp chromosome * (1 - initial_y_now config)
                + Chromosome.ki chromosome * 0
                + Chromosome.kd chromosome * (1 - initial_y_now config - 0))
               (fst (cfg_u_boundary config)) (snd (cfg_u_boundary config)).
Proof.
  intros HN.
  destruct (init_first_sample chromosome config HN) as (self & Hinit & H1).
  destruct (init_returns chromosome config HN)
    as (self' & s0 & Hinit' & H0 & _ & _ & _ & _ & _ & _ & _ & _ & _ & _ & Huf
        & _ & Hen & _ & Hes & Herrors & Hu).
  rewrite Hinit in Hinit'. injection Hinit' as <-.
  rewrite H1 in H0. injection H0 as <-.
  exists self. split; [exact Hinit |].
  split; [exact Herrors |]. split; [exact Hen |]. split; [exact Hes |].
  split; [exact Huf |]. exact Hu.
Qed.

Lemma initial_controller_action_witness :
  exists self : ControlSystem.t,
    init scenario_chromosome scenario_config = Return self
    /\ errors self = [1 - initial_y_now scenario_config]
    /\ error_now self = 1 - initial_y_now scenario_config
    /\ error_sum self = 0
    /\ u_fore self = 0
    /\ u_now self
       = clamp (Chromosome.kp scenario_chromosome
                * (1 - initial_y_now scenario_config)
                + Chromosome.ki scenario_chromosome * 0
                + Chromosome.kd scenario_chromosome
                  * (1 - initial_y_now scenario_config - 0))
               (fst (cfg_u_boundary scenario_config))
               (snd (cfg_u_boundary scenario_config)).
Proof.
  apply (initial_controller_action scenario_chromosome scenario_config).
  simpl. lia.
Defined.

Lemma run_body_inv (index : nat) (s s' : ControlSystem.t) :
  run_body index s = Return s' ->
  exists signal_t : R,
    input_signal s !! index = Some signal_t /\ s' = iteration_result s signal_t.
Proof.
  destruct (input_signal s !! index) as [signal_t |] eqn:Hsig.
  - rewrite (run_body_result index s signal_t Hsig). intros [= <-].
    exists signal_t. split; reflexivity.
  - unfold run_body, getitem. cbn [input_signal update_y_now set_y_now].
    rewrite Hsig. discriminate.
Qed.

Lemma fold_left_snoc (l : list R) (x acc : R) :
  fold_left Rplus (l ++ [x]) acc = fold_left Rplus l acc + x.
Proof. rewrite fold_left_app. reflexivity. Qed.

(** What the loop of [run] keeps true: the last recorded output and error
    are the current ones, the first recorded ones never change, and the
    error sum is the sum of the recorded errors but the first. *)
Lemma run_loop_histories (indices : list nat) :
  forall (s s' : ControlSystem.t) (y0 e0 : R),
    run_loop indices s = Return s' ->
    head (y s) = Some y0 -> head (errors s) = Some e0 ->
    last (y s) = Some (y_now s) -> last (errors s) = Some (error_now s) ->
    error_sum s = numpy.sum (tail (errors s)) ->
    head (y s') = Some y0 /\ head (errors s') = Some e0
    /\ last (y s') = Some (y_now s') /\ last (errors s') = Some (error_now s')
    /\ error_sum s' = numpy.sum (tail (errors s')).
Proof.
  induction indices as [| index rest IH]; intros s s' y0 e0 Hrun Hy He Hly Hle Hsum.
  - injection Hrun as <-. auto.
  - cbn [run_loop] in Hrun.
    destruct (run_body index s) as [s1 | e] eqn:Hbody; [| discriminate].
    cbn [obind] in Hrun.
    destruct (run_body_inv index s s1 Hbody) as (sig & _ & Hs1).
    apply (IH s1 s' y0 e0 Hrun); subst s1; unfold iteration_result;
      cbn [y errors y_now error_now error_sum].
    + destruct (y s); [discriminate | exact Hy].
    + destruct (errors s); [discriminate | exact He].
    + apply last_snoc.
    + apply last_snoc.
    + destruct (errors s) as [| e1 es]; [discriminate |].
      cbn [app tail] in *. unfold numpy.sum in *.
      rewrite fold_left_snoc, Hsum. reflexivity.
Qed.

(** After a run the histories start with the initial output and the
    initial error 1 - y0 and end with the current output and error, and the
    integral term is the sum of all recorded errors except the initial
    one, which is never accumulated. *)
Theorem histories_track_state (chromosome : Chromosome.t) (config : Config) :
  (1 <= cfg_period config * cfg_slicing_per_period config)%Z ->
  exists self final : ControlSystem.t,
    init chromosome config = Return self
    /\ run self = Return final
    /\ head (y final) = Some (initial_y_now config)
    /\ head (errors final) = Some (1 - initial_y_now config)
    /\ last (y final) = Some (y_now final)
    /\ last (errors final) = Some (error_now final)
    /\ error_sum final = numpy.sum (tail (errors final)).
Proof.
  intros HN.
  destruct (init_first_sample chromosome config HN) as (self & Hinit & H1).
  destruct (init_returns chromosome config HN)
    as (self' & s0 & Hinit' & H0 & Hlen & Hp & Hs & _ & _ & _ & _ & _ & Hyn & _ & _
        & Hy & Hen & _ & Hes & Herrors & _).
  rewrite Hinit in Hinit'. injection Hinit' as <-.
  rewrite H1 in H0. injection H0 as <-.
  destruct (run_returns self) as (final & Hrun & _).
  { rewrite Hlen. lia. }
  { now rewrite Hlen, Hp, Hs. }
  exists self, final. split; [exact Hinit |]. split; [exact Hrun |].
  apply (run_loop_histories _ self final _ _ Hrun).
  - now rewrite Hy.
  - now rewrite Herrors.
  - now rewrite Hy, Hyn.
  - now rewrite Herrors, Hen.
  - rewrite Herrors, Hes. reflexivity.
Qed.

Lemma histories_track_state_witness :
  exists self final : ControlSystem.t,
    init scenario_chromosome scenario_config = Return self
    /\ run self = Return final
    /\ head (y final) = Some (initial_y_now scenario_config)
    /\ head (errors final) = Some (1 - initial_y_now scenario_config)
    /\ last (y final) = Some (y_now final)
    /\ last (errors final) = Some (error_now final)
    /\ error_sum final = numpy.sum (tail (errors final)).
Proof.
  apply (histories_track_state scenario_chromosome scenario_config).
  simpl. lia.
Defined.

(** Each iteration ends by copying the new output, action and error into
    the retained previous values. From the second iteration on the plant law
    therefore reads the same output and the same action twice: its terms in
    the previous output and the previous action are taken at the current
    ones. *)
Theorem retained_values_collapse (chromosome : Chromosome.t) (config : Config)
    (t : nat) :
  (1 <= t)%nat ->
  (S t <= Z.to_nat (cfg_period config * cfg_slicing_per_period config) - 1)%nat ->
  exists self s s' : ControlSystem.t,
    init chromosome config = Return self
    /\ run_loop (seq 1 t) self = Return s
    /\ y_fore s = y_now s /\ u_fore s = u_now s /\ error_fore s = error_now s
    /\ run_loop (seq 1 (S t)) self = Return s'
    /\ y_now s'
       = 2.6 * y_now s - 1.2 * y_now s + u_now s + 1.2 * u_now s
         + eta s * y_now s * sin (u_now s + u_now s + y_now s + y_now s).
Proof.
  intros H1 Ht.
  destruct (init_returns chromosome config)
    as (self & s0 & Hinit & _ & Hlen & _); [lia |].
  destruct (run_loop_seq (t - 1) 1 self) as (s1 & Hs1 & Hsame1 & _); [lia |].
  assert (Hsig1 : input_signal s1 = input_signal self) by apply Hsame1.
  destruct (lookup_lt_is_Some_2 (input_signal s1) t) as [sig Hsig];
    [rewrite Hsig1; lia |].
  destruct (run_body_post t s1 sig Hsig)
    as (s & Hbody & (Hyn & Hen & Hun & _ & _ & _ & Hef & Hyf & Huf) & Hsame).
  assert (Hsig2 : input_signal s = input_signal self).
  { destruct Hsame as (_ & _ & _ & _ & _ & _ & _ & ->). exact Hsig1. }
  destruct (lookup_lt_is_Some_2 (input_signal s) (S t)) as [sig' Hsig'];
    [rewrite Hsig2; lia |].
  destruct (run_body_post (S t) s sig' Hsig')
    as (s' & Hbody' & (Hyn' & _) & _).
  assert (Hrun : run_loop (seq 1 t) self = Return s).
  { replace t with (S (t - 1)) at 1 by lia.
    rewrite seq_S, run_loop_app, Hs1. cbn [obind].
    replace (1 + (t - 1))%nat with t by lia.
    cbn [run_loop]. now rewrite Hbody. }
  exists self, s, s'. split; [exact Hinit |]. split; [exact Hrun |].
  split; [congruence |]. split; [congruence |]. split; [congruence |].
  split.
  - rewrite seq_S, run_loop_app, Hrun. change (1 + t)%nat with (S t).
    cbn [obind run_loop]. now rewrite Hbody'.
  - rewrite Hyn'.
    assert (Hy : y_fore s = y_now s) by congruence.
    assert (Hu : u_fore s = u_now s) by congruence.
    rewrite Hy, Hu. reflexivity.
Qed.

Lemma retained_values_collapse_witness :
  exists self s s' : ControlSystem.t,
    init scenario_chromosome scenario_config = Return self
    /\ run_loop (seq 1 1) self = Return s
    /\ y_fore s = y_now s /\ u_fore s = u_now s /\ error_fore s = error_now s
    /\ run_loop (seq 1 2) self = Return s'
    /\ y_now s'
       = 2.6 * y_now s - 1.2 * y_now s + u_now s + 1.2 * u_now s
         + eta s * y_now s * sin (u_now s + u_now s + y_now s + y_now s).
Proof.
  apply (retained_values_collapse scenario_chromosome scenario_config 1);
    simpl; lia.
Defined.

End SimulatorInvariants.

(** * Further properties of the genetic algorithm *)

Section BoundaryCheck.

Import GeneticAlgorithm.

(** For an ordered boundary, [__check_boundary] returns a value of the
    boundary, returns the values of the boundary unchanged, is idempotent
    and preserves the order of the values it is given. *)
Theorem check_boundary_clamps (boundary : R * R) (v v' : R) :
  fst boundary <= snd boundary ->
  in_boundary boundary (check_boundary v boundary)
  /\ (in_boundary boundary v -> check_boundary v boundary = v)
  /\ check_boundary (check_boundary v boundary) boundary
     = check_boundary v boundary
  /\ (v <= v' -> check_boundary v boundary <= check_boundary v' boundary).
Proof.
  intros Hb. unfold in_boundary, check_boundary.
  repeat split; intros;
    repeat match goal with
           | |- context [Rlt_dec ?a ?b] => destruct (Rlt_dec a b)
           | |- context [Rgt_dec ?a ?b] => destruct (Rgt_dec a b)
           end; lra.
Qed.

Lemma check_boundary_clamps_witness :
  in_boundary (0, 5) (check_boundary 7 (0, 5))
  /\ (in_boundary (0, 5) 7 -> check_boundary 7 (0, 5) = 7)
  /\ check_boundary (check_boundary 7 (0, 5)) (0, 5) = check_boundary 7 (0, 5)
  /\ (7 <= 8 -> check_boundary 7 (0, 5) <= check_boundary 8 (0, 5)).
Proof. apply (check_boundary_clamps (0, 5) 7 8). simpl. lra. Defined.

End BoundaryCheck.

Section CrossOverStore.

Import GeneticAlgorithm.

Variable tape : random.Tape.

(** Crossover never writes to an existing chromosome: the store keeps all
    its objects and gains at most one. The child is the first parent
    itself, the second parent itself, or the one new object; one or two
    draws are consumed. *)
Theorem cross_over_store (self : GeneticAlgorithm.t) (parent_1 parent_2 : nat)
    (w : World) (c1 c2 : Chromosome.t) :
  objects w !! parent_1 = Some c1 ->
  objects w !! parent_2 = Some c2 ->
  exists (child : nat) (w' : World) (new : list Chromosome.t),
    cross_over tape self parent_1 parent_2 w = (Return child, w')
    /\ objects w' = objects w ++ new
    /\ (length new <= 1)%nat
    /\ (child = parent_1 \/ child = parent_2
        \/ (child = length (objects w) /\ length new = 1%nat))
    /\ (cursor w < cursor w' <= cursor w + 2)%nat.
Proof.
  intros H1 H2.
  destruct (Rgt_dec (random.unit_sample (tape (cursor w))) (crossover_rate self))
    as [Hgt | Hle].
  - exists parent_1, (advance w), [].
    split; [now apply cross_over_skipped |].
    split; [cbn; now rewrite app_nil_r |].
    split; [cbn; lia |]. split; [now left | cbn; lia].
  - destruct (cross_over_performed tape self parent_1 parent_2 w c1 c2 Hle H1 H2)
      as (child & c & w' & Hrun & Hcursor & _ & _ & [(Hc & Ho) | (Hc & Ho)]).
    + exists child, w', []. split; [exact Hrun |].
      split; [now rewrite app_nil_r |]. split; [cbn; lia |].
      split; [now right; left | lia].
    + exists child, w', [c]. split; [exact Hrun |]. split; [exact Ho |].
      split; [cbn; lia |]. split; [right; right; now split | lia].
Qed.

(** A negative crossover rate disables crossover for every draw, the draw
    0 included: the first parent itself is returned after one draw and the
    store is left as it was. *)
Theorem cross_over_disabled (self : GeneticAlgorithm.t) (parent_1 parent_2 : nat)
    (w : World) :
  crossover_rate self < 0 ->
  cross_over tape self parent_1 parent_2 w = (Return parent_1, advance w)
  /\ objects (advance w) = objects w
  /\ cursor (advance w) = S (cursor w).
Proof.
  intros Hrate. split; [| split; reflexivity].
  apply cross_over_skipped.
  pose proof (unit_sample_range (tape (cursor w))). lra.
Qed.

End CrossOverStore.

Section CrossOverStoreWitnesses.

Import GeneticAlgorithm.

Lemma cross_over_store_witness :
  exists (child : nat) (w' : World) (new : list Chromosome.t),
    cross_over zero_tape (sample_algorithm 2 1) 0%nat 1%nat sample_world
    = (Return child, w')
    /\ objects w' = objects sample_world ++ new
    /\ (length new <= 1)%nat
    /\ (child = 0%nat \/ child = 1%nat
        \/ (child = length (objects sample_world) /\ length new = 1%nat))
    /\ (cursor sample_world < cursor w' <= cursor sample_world + 2)%nat.
Proof.
  apply (cross_over_store zero_tape (sample_algorithm 2 1) 0%nat 1%nat sample_world
           sample_parent_1 sample_parent_2); reflexivity.
Defined.

Lemma cross_over_disabled_witness :
  cross_over zero_tape (sample_algorithm 2 (-1)) 0%nat 1%nat sample_world
  = (Return 0%nat, advance sample_world)
  /\ objects (advance sample_world) = objects sample_world
  /\ cursor (advance sample_world) = S (cursor sample_world).
Proof.
  apply (cross_over_disabled zero_tape (sample_algorithm 2 (-1)) 0%nat 1%nat
           sample_world).
  simpl. lra.
Defined.

End CrossOverStoreWitnesses.

Section MutationSteps.

Import GeneticAlgorithm.

Variable tape : random.Tape.

(** [__mutation] in detail: the object is rewritten with at most one gene
    replaced by a clamped value; between three and six draws are
    consumed. *)
Lemma mutation_step (self : GeneticAlgorithm.t) (chromosome : nat) (w : World)
    (c : Chromosome.t) :
  objects w !! chromosome = Some c ->
  exists (c' : Chromosome.t) (w' : World) (v : R),
    mutation tape self chromosome w = (Return chromosome, w')
    /\ objects w' = <[chromosome := c']> (objects w)
    /\ (cursor w + 3 <= cursor w' <= cursor w + 6)%nat
    /\ (c' = c
        \/ c' = Chromosome.set_kp (check_boundary v (pid_boundary self)) c
        \/ c' = Chromosome.set_ki (check_boundary v (pid_boundary self)) c
        \/ c' = Chromosome.set_kd (check_boundary v (pid_boundary self)) c
        \/ c' = Chromosome.set_eta (check_boundary v (eta_boundary self)) c).
Proof.
  intros Hc. destruct c as [kp ki kd eta].
  assert (Hlt : (chromosome < length (objects w))%nat)
    by (eapply lookup_lt_Some; exact Hc).
  unfold mutation. step. step.
  destruct (Rlt_dec _ _);
    [| step; destruct (Rlt_dec _ _);
       [| step; destruct (Rlt_dec _ _);
          [| step; destruct (Rlt_dec _ _) ]]].
  5: { eexists (Chromosome.Chromosome kp ki kd eta), _, 0.
       split; [reflexivity |].
       split; [cbn [objects advance]; symmetry; now apply list_insert_id |].
       split; [cbn; lia | left; reflexivity]. }
  all: step; step; step;
    (erewrite bind_return by
       (apply load_live; cbn [objects advance];
        apply list_lookup_insert_eq; exact Hlt));
    cbv beta; step;
    eexists _, _, _; (split; [reflexivity |]);
    cbn [objects advance cursor Chromosome.kp Chromosome.ki Chromosome.kd
         Chromosome.eta Chromosome.set_kp Chromosome.set_ki Chromosome.set_kd
         Chromosome.set_eta];
    (split; [apply list_insert_insert_eq |]); (split; [lia |]).
  - right; left. reflexivity.
  - right; right; left. reflexivity.
  - right; right; right; left. reflexivity.
  - right; right; right; right. reflexivity.
Qed.

(** One call of [__mutation] on a chromosome inside ordered boundaries
    returns the same reference after three to six draws, rewrites that
    object alone, leaves it inside the boundaries, and changes at most one
    of its four genes. *)
Theorem mutation_moves_one_gene (self : GeneticAlgorithm.t) (chromosome : nat)
    (w : World) (c : Chromosome.t) :
  fst (pid_boundary self) <= snd (pid_boundary self) ->
  fst (eta_boundary self) <= snd (eta_boundary self) ->
  objects w !! chromosome = Some c ->
  in_bounds self c ->
  exists (c' : Chromosome.t) (w' : World),
    mutation tape self chromosome w = (Return chromosome, w')
    /\ objects w' = <[chromosome := c']> (objects w)
    /\ (cursor w + 3 <= cursor w' <= cursor w + 6)%nat
    /\ in_bounds self c'
    /\ ((Chromosome.ki c' = Chromosome.ki c /\ Chromosome.kd c' = Chromosome.kd c
         /\ Chromosome.eta c' = Chromosome.eta c)
        \/ (Chromosome.kp c' = Chromosome.kp c /\ Chromosome.kd c' = Chromosome.kd c
            /\ Chromosome.eta c' = Chromosome.eta c)
        \/ (Chromosome.kp c' = Chromosome.kp c /\ Chromosome.ki c' = Chromosome.ki c
            /\ Chromosome.eta c' = Chromosome.eta c)
        \/ (Chromosome.kp c' = Chromosome.kp c /\ Chromosome.ki c' = Chromosome.ki c
            /\ Chromosome.kd c' = Chromosome.kd c)).
Proof.
  intros Hpid Heta Hc (Hk & Hi & Hd & He).
  destruct (mutation_step self chromosome w c Hc)
    as (c' & w' & v & Hrun & Ho & Hcursor & Hcases).
  exists c', w'. split; [exact Hrun |]. split; [exact Ho |].
  split; [exact Hcursor |].
  destruct c as [kp ki kd eta]. cbn in Hk, Hi, Hd, He.
  clear Hrun Ho Hcursor.
  pose proof (check_boundary_in_boundary v (pid_boundary self) Hpid) as Hvp.
  pose proof (check_boundary_in_boundary v (eta_boundary self) Heta) as Hve.
  destruct Hcases as [-> | [-> | [-> | [-> | ->]]]];
    cbn in *;
    (split; [unfold in_boundary in *; repeat split; cbn; lra |]).
  - left; auto.
  - left; auto.
  - right; left; auto.
  - right; right; left; auto.
  - right; right; right; auto.
Qed.

(** With a mutation probability of 0 or less no draw falls under a
    threshold: after its five draws [__mutation] returns the reference and
    the store is unchanged. *)
Theorem mutation_disabled (self : GeneticAlgorithm.t) (chromosome : nat)
    (w : World) :
  mutation_probability self <= 0 ->
  exists w' : World,
    mutation tape self chromosome w = (Return chromosome, w')
    /\ objects w' = objects w
    /\ cursor w' = (cursor w + 5)%nat.
Proof.
  intros Hmp. unfold mutation. step. step.
  pose proof (unit_sample_range (tape (cursor (advance w)))) as H1.
  destruct (Rlt_dec _ _) as [Hlt | _]; [exfalso; lra |].
  step.
  pose proof (unit_sample_range (tape (cursor (advance (advance w))))) as H2.
  destruct (Rlt_dec _ _) as [Hlt | _]; [exfalso; lra |].
  step.
  pose proof (unit_sample_range
                (tape (cursor (advance (advance (advance w)))))) as H3.
  destruct (Rlt_dec _ _) as [Hlt | _]; [exfalso; lra |].
  step.
  pose proof (unit_sample_range
                (tape (cursor (advance (advance (advance (advance w))))))) as H4.
  destruct (Rlt_dec _ _) as [Hlt | _]; [exfalso; lra |].
  eexists. split; [reflexivity |]. split; [reflexivity |]. cbn. lia.
Qed.

End MutationSteps.

Section MutationStepsWitnesses.

Import GeneticAlgorithm.

Lemma mutation_moves_one_gene_witness :
  exists (c' : Chromosome.t) (w' : World),
    mutation zero_tape (sample_algorithm 2 1) 0%nat sample_world
    = (Return 0%nat, w')
    /\ objects w' = <[0%nat := c']> (objects sample_world)
    /\ (cursor sample_world + 3 <= cursor w' <= cursor sample_world + 6)%nat
    /\ in_bounds (sample_algorithm 2 1) c'
    /\ ((Chromosome.ki c' = Chromosome.ki sample_parent_1
         /\ Chromosome.kd c' = Chromosome.kd sample_parent_1
         /\ Chromosome.eta c' = Chromosome.eta sample_parent_1)
        \/ (Chromosome.kp c' = Chromosome.kp sample_parent_1
            /\ Chromosome.kd c' = Chromosome.kd sample_parent_1
            /\ Chromosome.eta c' = Chromosome.eta sample_parent_1)
        \/ (Chromosome.kp c' = Chromosome.kp sample_parent_1
            /\ Chromosome.ki c' = Chromosome.ki sample_parent_1
            /\ Chromosome.eta c' = Chromosome.eta sample_parent_1)
        \/ (Chromosome.kp c' = Chromosome.kp sample_parent_1
            /\ Chromosome.ki c' = Chromosome.ki sample_parent_1
            /\ Chromosome.kd c' = Chromosome.kd sample_parent_1)).
Proof.
  apply (mutation_moves_one_gene zero_tape (sample_algorithm 2 1) 0%nat
           sample_world sample_parent_1).
  - simpl. lra.
  - simpl. lra.
  - reflexivity.
  - repeat split; simpl; lra.
Defined.

Lemma mutation_disabled_witness :
  exists w' : World,
    mutation zero_tape
      {| pid_boundary := (0, 5); eta_boundary := (0, 5); population_number := 2;
         mutation_probability := 0; crossover_rate := 0.5;
         control_system_config := scenario_config;
         populations := [0%nat; 1%nat] |}
      0%nat sample_world
    = (Return 0%nat, w')
    /\ objects w' = objects sample_world
    /\ cursor w' = (cursor sample_world + 5)%nat.
Proof.
  apply (mutation_disabled zero_tape
           {| pid_boundary := (0, 5); eta_boundary := (0, 5);
              population_number := 2;
              mutation_probability := 0; crossover_rate := 0.5;
              control_system_config := scenario_config;
              populations := [0%nat; 1%nat] |}
           0%nat sample_world).
  simpl. lra.
Defined.

End MutationStepsWitnesses.

Section InitialPopulationExact.

Import GeneticAlgorithm.

Variable tape : random.Tape.



End InitialPopulationExact.

Section GenerationSteps.

Import GeneticAlgorithm.

(** A tournament over at least two fitness values consumes exactly k + 1
    draws and touches no object; the index it returns is one of its
    candidates, and with k = 0 it is the baseline draw. *)
Theorem select_consumes_draws (tape : random.Tape) (fitness_values : list float)
    (k : nat) (w : World) :
  (2 <= length fitness_values)%nat ->
  exists best : Z,
    select tape fitness_values k w
    = (Return best, {| objects := objects w; cursor := (cursor w + S k)%nat |})
    /\ In best (candidate_pool tape (length fitness_values) k w)
    /\ (k = 0%nat ->
        best = random.bounded_sample 0 (Z.of_nat (length fitness_values) - 1)
                 (tape (cursor w))).
Proof.
  intros Hn.
  destruct (select_returns_index tape fitness_values k w Hn)
    as (best & Hrun & Hpool & _).
  exists best. split; [exact Hrun |]. split; [exact Hpool |].
  intros ->. unfold candidate_pool in Hpool. cbn [seq map] in Hpool.
  rewrite Nat.add_0_r in Hpool.
  destruct Hpool as [<- | []]. reflexivity.
Qed.

Lemma select_consumes_draws_witness :
  exists best : Z,
    select zero_tape [Finite 3; Finite 1; Finite 2] 0 empty_world
    = (Return best,
       {| objects := objects empty_world; cursor := (cursor empty_world + 1)%nat |})
    /\ In best (candidate_pool zero_tape (length [Finite 3; Finite 1; Finite 2]) 0
                               empty_world)
    /\ (0%nat = 0%nat ->
        best = random.bounded_sample 0
                 (Z.of_nat (length [Finite 3; Finite 1; Finite 2]) - 1)
                 (zero_tape (cursor empty_world))).
Proof.
  apply (select_consumes_draws zero_tape [Finite 3; Finite 1; Finite 2] 0
           empty_world).
  simpl. lia.
Defined.

(** [calculate_fitness] never changes the world, whether it returns or
    raises; a fitness it returns never compares below zero; an index
    outside [-n, n-1], for a population of n, is an [IndexError]; and a
    negative index inside it counts from the end of the population. *)
Theorem calculate_fitness_pure (self : GeneticAlgorithm.t) (index : Z)
    (w : World) :
  snd (calculate_fitness self index w) = w
  /\ (forall f : float,
         fst (calculate_fitness self index w) = Return f ->
         ~ float_lt f (Finite 0))
  /\ ((Z.of_nat (length (populations self)) <= index
       \/ index < - Z.of_nat (length (populations self)))%Z ->
      fst (calculate_fitness self index w) = Raise IndexError_populations)
  /\ ((- Z.of_nat (length (populations self)) <= index < 0)%Z ->
      calculate_fitness self index w
      = calculate_fitness self (Z.of_nat (length (populations self)) + index) w).
Proof.
  split; [| split; [| split]].
  - unfold calculate_fitness, bind, lift, load, ret.
    destruct (getitem_int _ _ _) as [r | e]; [| reflexivity].
    destruct (getitem _ _ _) as [c | e]; [| reflexivity].
    destruct (ControlSystem.init _ _) as [cs | e]; [| reflexivity].
    destruct (ControlSystem.run _) as [final | e]; reflexivity.
  - unfold calculate_fitness, bind, lift, load, ret.
    destruct (getitem_int _ _ _) as [r | e]; [| discriminate].
    destruct (getitem _ _ _) as [c | e]; [| discriminate].
    destruct (ControlSystem.init _ _) as [cs | e]; [| discriminate].
    destruct (ControlSystem.run _) as [final | e]; [| discriminate].
    cbn [fst]. intros f [= <-]. apply get_fitness_value_not_negative.
  - intros Hi. unfold calculate_fitness, bind, lift.
    now rewrite getitem_int_outside.
  - intros Hi. unfold calculate_fitness, bind, lift.
    now rewrite getitem_int_negative.
Qed.

(** When the crossover of a child is skipped, the child is the selected
    parent itself: the reference returned is the one the old population
    holds at the selected index, and mutation rewrites that very object. *)
Theorem offspring_aliases_parent (tape : random.Tape) (self : GeneticAlgorithm.t)
    (fitness_values : list float) (w : World) :
  (2 <= length fitness_values)%nat ->
  length (populations self) = length fitness_values ->
  Forall (fun r => is_Some (objects w !! r)) (populations self) ->
  random.unit_sample (tape (cursor w + 3)%nat) > crossover_rate self ->
  exists (parent_index : Z) (child : nat) (w' : World) (c' : Chromosome.t),
    select tape fitness_values 2 w
    = (Return parent_index,
       {| objects := objects w; cursor := (cursor w + 3)%nat |})
    /\ offspring tape self fitness_values w = (Return child, w')
    /\ populations self !! Z.to_nat parent_index = Some child
    /\ objects w' = <[child := c']> (objects w).
Proof.
  intros Hn Hlen Hall Hskip.
  destruct (select_returns_index tape fitness_values 2 w Hn)
    as (best & Hselect & _ & Hrange).
  set (w1 := {| objects := objects w; cursor := (cursor w + 3)%nat |}) in *.
  destruct (lookup_lt_is_Some_2 (populations self) (Z.to_nat best))
    as [p1 Hp1]; [lia |].
  destruct (lookup_lt_is_Some_2 (populations self) (Z.to_nat (best + 1)))
    as [p2 Hp2]; [lia |].
  destruct (Forall_lookup_1 _ _ _ _ Hall Hp1) as [c1 Hc1].
  destruct (mutation_returns tape self p1 (advance w1) c1 Hc1)
    as (c' & w' & Hmut & Ho & _).
  exists best, p1, w', c'. split; [exact Hselect |].
  split; [| split; [exact Hp1 | exact Ho]].
  unfold offspring. step.
  erewrite bind_return
    by (unfold lift; rewrite (getitem_int_Some _ _ _ p1) by (lia || exact Hp1);
        reflexivity).
  erewrite bind_return
    by (unfold lift; rewrite (getitem_int_Some _ _ _ p2) by (lia || exact Hp2);
        reflexivity).
  erewrite bind_return by (apply cross_over_skipped; exact Hskip).
  exact Hmut.
Qed.

Lemma offspring_aliases_parent_witness :
  exists (parent_index : Z) (child : nat) (w' : World) (c' : Chromosome.t),
    select zero_tape [Finite 3; Finite 1] 2 sample_world
    = (Return parent_index,
       {| objects := objects sample_world;
          cursor := (cursor sample_world + 3)%nat |})
    /\ offspring zero_tape (sample_algorithm 2 (-1)) [Finite 3; Finite 1]
                 sample_world
       = (Return child, w')
    /\ populations (sample_algorithm 2 (-1)) !! Z.to_nat parent_index = Some child
    /\ objects w' = <[child := c']> (objects sample_world).
Proof.
  apply (offspring_aliases_parent zero_tape (sample_algorithm 2 (-1))
           [Finite 3; Finite 1] sample_world).
  - simpl. lia.
  - reflexivity.
  - repeat constructor; eexists; reflexivity.
  - change (random.unit_sample 0 > -1). rewrite unit_sample_zero. lra.
Defined.

(** How a call of [produce_next_generation] can end in a reachable state.
    It raises exactly when the population has a single individual or when
    there are individuals but no sample to simulate; a call that raises
    leaves the object and the world as they were, and the exception is never
    an out-of-range read of the population. It returns otherwise, with a
    population of the configured size. *)
Theorem produce_next_generation_outcomes (tape : random.Tape) (config : Config)
    (self : GeneticAlgorithm.t) (w w' : World) (o : Outcome GeneticAlgorithm.t) :
  reachable tape config self w ->
  produce_next_generation tape self w = (o, w') ->
  (forall e : Exception,
      o = Raise e ->
      w' = w /\ after_call self o = self /\ e <> IndexError_populations
      /\ (cfg_population_number config = 1%Z
          \/ (1 <= cfg_population_number config)%Z /\ (samples config <= 0)%Z))
  /\ (forall self' : GeneticAlgorithm.t,
        o = Return self' ->
        ((cfg_population_number config <= 0)%Z
         \/ (2 <= cfg_population_number config)%Z /\ (1 <= samples config)%Z)
        /\ length (populations self')
           = Z.to_nat (cfg_population_number config)
        /\ self' = set_populations (populations self') self).
Proof.
  intros Hreach Hrun.
  destruct (reachable_live tape config self w Hreach)
    as ((_ & _ & Hnumber & _ & _ & Hcs) & Hlen & Hall).
  unfold samples. rewrite <- Hnumber, <- Hcs.
  destruct (Z_le_gt_dec (population_number self) 0) as [Hp0 | Hp1].
  - rewrite produce_next_generation_empty in Hrun by exact Hp0.
    injection Hrun as <- <-. split; [discriminate |].
    intros self' [= <-]. split; [now left |].
    split; [cbn; lia | reflexivity].
  - destruct (Z_le_gt_dec
                (ControlSystem.cfg_period (control_system_config self)
                 * ControlSystem.cfg_slicing_per_period (control_system_config self))
                0) as [HN0 | HN1].
    + destruct (produce_next_generation_no_sample tape self any_gene any_gene w)
        as (e & Hraise & He); [lia | exact HN0 | exact Hlen | exact Hall |].
      rewrite Hraise in Hrun. injection Hrun as <- <-.
      split; [| discriminate].
      intros e' [= <-]. split; [reflexivity |]. split; [reflexivity |].
      split; [exact He |]. right. split; [lia | exact HN0].
    + destruct (Z.eq_dec (population_number self) 1%Z) as [H1 | Hn1].
      * rewrite (produce_next_generation_single tape self any_gene any_gene)
          in Hrun;
          [| exact H1 | lia | rewrite Hlen, H1; reflexivity | exact Hall].
        injection Hrun as <- <-. split; [| discriminate].
        intros e [= <-]. split; [reflexivity |]. split; [reflexivity |].
        split; [discriminate | now left].
      * destruct (produce_next_generation_returns tape self any_gene any_gene)
          with (w := w) as (children & w2 & Hret & _ & _ & Hl);
          try (intros; exact I); try assumption; try lia.
        rewrite Hret in Hrun. injection Hrun as <- <-.
        split; [discriminate |].
        intros self' [= <-]. split; [right; lia |].
        split; [exact Hl | reflexivity].
Qed.

Lemma produce_next_generation_outcomes_witness :
  exists (self : GeneticAlgorithm.t) (w : World),
    init zero_tape (sample_config 1) empty_world = (Return self, w)
    /\ (forall e : Exception,
           fst (produce_next_generation zero_tape self w) = Raise e ->
           snd (produce_next_generation zero_tape self w) = w
           /\ after_call self (fst (produce_next_generation zero_tape self w))
              = self
           /\ e <> IndexError_populations
           /\ (cfg_population_number (sample_config 1) = 1%Z
               \/ (1 <= cfg_population_number (sample_config 1))%Z
                  /\ (samples (sample_config 1) <= 0)%Z))
    /\ (forall self' : GeneticAlgorithm.t,
           fst (produce_next_generation zero_tape self w) = Return self' ->
           ((cfg_population_number (sample_config 1) <= 0)%Z
            \/ (2 <= cfg_population_number (sample_config 1))%Z
               /\ (1 <= samples (sample_config 1))%Z)
           /\ length (populations self')
              = Z.to_nat (cfg_population_number (sample_config 1))
           /\ self' = set_populations (populations self') self).
Proof.
  eexists _, _. split; [reflexivity |].
  eapply (produce_next_generation_outcomes zero_tape (sample_config 1)).
  - eapply reachable_init with (w0 := empty_world). reflexivity.
  - apply surjective_pairing.
Defined.

(** In every reachable state, also after calls that raised, the object
    still carries the attributes of its configuration, its population has
    the configured size (none for a population number of 0 or less) and
    every reference of the population denotes a chromosome of the store. *)
Theorem reachable_population_size (tape : random.Tape) (config : Config)
    (self : GeneticAlgorithm.t) (w : World) :
  reachable tape config self w ->
  configured config self
  /\ length (populations self) = Z.to_nat (cfg_population_number config)
  /\ Forall (fun r => is_Some (objects w !! r)) (populations self).
Proof.
  intros Hreach.
  destruct (reachable_live tape config self w Hreach)
    as (Hcfg & Hlen & Hall).
  split; [exact Hcfg |]. split.
  - destruct Hcfg as (_ & _ & <- & _). exact Hlen.
  - eapply Forall_impl; [exact Hall |]. intros r (c & Hc & _). now exists c.
Qed.

Lemma reachable_population_size_witness :
  exists (self : GeneticAlgorithm.t) (w : World),
    init zero_tape (sample_config 2) empty_world = (Return self, w)
    /\ configured (sample_config 2) self
    /\ length (populations self)
       = Z.to_nat (cfg_population_number (sample_config 2))
    /\ Forall (fun r => is_Some (objects w !! r)) (populations self).
Proof.
  eexists _, _. split; [reflexivity |].
  apply (reachable_population_size zero_tape (sample_config 2)).
  eapply reachable_init with (w0 := empty_world). reflexivity.
Defined.

End GenerationSteps.
